(** * Messer: the session state of the terminal messenger client

    A shallow embedding of [messer.js] (the [Messer] prototype: caches,
    name resolution, bulk fetch, login, start-up and command dispatch) and
    of [helpers.js] (where the credentials come from), followed by the
    properties of the session manager that are stated about them.

    Conventions of the embedding.
    - A JavaScript string is a [string] whose characters are read as the
      code units U+0000..U+00FF.
    - [undefined] and [null] are [None]; a property that the code only ever
      reads as a string is an [option string].
    - A plain object used as a dictionary whose enumeration order is never
      observed ([threadCache], [userCache], the user object) is a [gmap];
      [threadMap], whose keys are enumerated by [Object.keys], is an ordered
      property list.  Keys that name members of [Object.prototype]
      (such as [constructor]) are not considered.
    - A node-style callback [(err, data)] receives a [response]: either the
      data or the error, never both.
    - A function that returns a promise is run up to the point where the
      promise settles; its [completion] is [Normal v] when the promise is
      fulfilled with [v] and [Abrupt r] when it is rejected with [r].  For a
      synchronous function [Normal] is a return and [Abrupt] a throw.
      [getThreadById] is also given in two halves (executor and callback)
      so that calls can be interleaved. *)

From Stdlib Require Import Ascii String NArith.
From stdpp Require Import gmap strings list fin_maps.

Local Open Scope string_scope.
Local Open Scope list_scope.
Set Warnings "-clear-no-such-hyp".

(** ** JavaScript strings *)

Module JsString.

Definition code (c : ascii) : N := N_of_ascii c.

(** White space and line terminators removed by [String.prototype.trim]:
    TAB, LF, VT, FF, CR, SP and NBSP. *)
Definition is_whitespace (c : ascii) : bool :=
  let n := code c in
  ((9 <=? n) && (n <=? 13) || (n =? 32) || (n =? 160))%N.

Definition lower_char (c : ascii) : ascii :=
  let n := code c in
  if ((65 <=? n) && (n <=? 90))%N then ascii_of_N (n + 32)
  else if ((192 <=? n) && (n <=? 222) && negb (n =? 215))%N then ascii_of_N (n + 32)
  else c.

Fixpoint toLowerCase (s : string) : string :=
  match s with
  | EmptyString => EmptyString
  | String c r => String (lower_char c) (toLowerCase r)
  end.

(** [s.startsWith(p)] *)
Fixpoint startsWith (s p : string) : bool :=
  match p, s with
  | EmptyString, _ => true
  | String _ _, EmptyString => false
  | String b p', String a s' => Ascii.eqb a b && startsWith s' p'
  end.

Fixpoint trimStart (s : string) : string :=
  match s with
  | EmptyString => EmptyString
  | String c r => if is_whitespace c then trimStart r else s
  end.

(** Drops the trailing white space: a character is kept when it is not
    white space or when something is kept after it. *)
Fixpoint trimEnd (s : string) : string :=
  match s with
  | EmptyString => EmptyString
  | String c r =>
      match trimEnd r with
      | EmptyString => if is_whitespace c then EmptyString else String c EmptyString
      | r' => String c r'
      end
  end.

Definition trim (s : string) : string := trimEnd (trimStart s).

(** [s.replace(c, "")] for a one-character pattern: only the first
    occurrence is removed. *)
Fixpoint remove_first (c : ascii) (s : string) : string :=
  match s with
  | EmptyString => EmptyString
  | String a r => if Ascii.eqb a c then r else String a (remove_first c r)
  end.

(** [s.split(c)] for a one-character separator. *)
Fixpoint split (c : ascii) (s : string) : list string :=
  match s with
  | EmptyString => [EmptyString]
  | String a r =>
      if Ascii.eqb a c then EmptyString :: split c r
      else match split c r with
           | [] => [String a EmptyString]
           | w :: ws => String a w :: ws
           end
  end.

Fixpoint all_whitespace (s : string) : bool :=
  match s with
  | EmptyString => true
  | String c r => is_whitespace c && all_whitespace r
  end.

End JsString.

(** ** JavaScript values that are thrown, rejected with or logged *)

Inductive jsval :=
| Str (s : string)            (* a string *)
| BackendError (msg : string) (* an error value of the messaging backend;
                                 [msg] is its conversion to a string *)
| TypeError (msg : string).   (* a TypeError raised by the engine *)

(** [String(v)], as used by a template literal. *)
Definition to_String (v : jsval) : string :=
  match v with
  | Str s => s
  | BackendError msg => msg
  | TypeError msg => "TypeError: " +:+ msg
  end.

(** [String(x)] for a string that may be [undefined]; also the property key
    that [o[x]] reads. *)
Definition property_key (x : option string) : string :=
  match x with
  | Some s => s
  | None => "undefined"
  end.

Inductive response (A : Type) :=
| Data (a : A)
| Failure (err : jsval).
Arguments Data {A} a.
Arguments Failure {A} err.

Inductive completion (A : Type) :=
| Normal (a : A)
| Abrupt (r : jsval).
Arguments Normal {A} a.
Arguments Abrupt {A} r.

(** ** Ordered property lists: an object whose keys are enumerated *)

Module Obj.
Section WithValue.
Context {V : Type}.

(** Own properties in creation order. *)
Definition t := list (string * V).

Fixpoint get (o : t) (k : string) : option V :=
  match o with
  | [] => None
  | (k', v) :: r => if String.eqb k k' then Some v else get r k
  end.

(** [o[k] = v]: an existing property keeps its place. *)
Fixpoint set (o : t) (k : string) (v : V) : t :=
  match o with
  | [] => [(k, v)]
  | (k', v') :: r =>
      if String.eqb k k' then (k, v) :: r else (k', v') :: set r k v
  end.

Definition names (o : t) : list string := map fst o.
End WithValue.
Arguments t : clear implicits.

Definition digit (c : ascii) : option N :=
  let n := N_of_ascii c in
  if ((48 <=? n) && (n <=? 57))%N then Some (n - 48)%N else None.

Fixpoint digits (s : string) (acc : N) : option N :=
  match s with
  | EmptyString => Some acc
  | String c r =>
      match digit c with
      | Some d => digits r (acc * 10 + d)%N
      | None => None
      end
  end.

(** A key is an array index when it is the canonical decimal form of an
    integer below 2^32 - 1. *)
Definition array_index (k : string) : option N :=
  match k with
  | EmptyString => None
  | String c r =>
      if Ascii.eqb c "0" && negb (String.eqb r "") then None
      else match digits k 0 with
           | Some n => if (n <=? 4294967294)%N then Some n else None
           | None => None
           end
  end.

Definition is_index (k : string) : bool :=
  match array_index k with Some _ => true | None => false end.

Fixpoint insert_sorted (x : N * string) (l : list (N * string)) : list (N * string) :=
  match l with
  | [] => [x]
  | y :: r => if (fst x <=? fst y)%N then x :: l else y :: insert_sorted x r
  end.

Fixpoint index_keys (ks : list string) : list (N * string) :=
  match ks with
  | [] => []
  | k :: r =>
      match array_index k with
      | Some n => insert_sorted (n, k) (index_keys r)
      | None => index_keys r
      end
  end.

(** [Object.keys(o)]: array indices in ascending numeric order, then the
    other keys in creation order. *)
Definition keys {V} (o : t V) : list string :=
  map snd (index_keys (names o)) ++ filter (fun k => is_index k = false) (names o).

End Obj.

(** ** Records exchanged with the messaging backend *)

(** A thread record.  [others] stands for the properties of a backend
    record besides [name] and [threadID] (participants, snippet, ...). *)
Module Thread.
Record t := mk {
  name : option string;
  threadID : string;
  others : list (string * string)
}.

Definition set_name (n : option string) (th : t) : t :=
  {| name := n; threadID := threadID th; others := others th |}.
End Thread.

(** An entry of the friends list. *)
Module Friend.
Record t := mk {
  userID : string;
  name : option string;
  fullName : option string
}.

(** [u.name || u.fullName], as a property key: an absent or empty [name]
    is falsy. *)
Definition display (u : t) : string :=
  match name u with
  | Some (String c r) => String c r
  | _ => property_key (fullName u)
  end.
End Friend.

(** The user object built by [fetchCurrentUser]: property name to value. *)
Abbreviation User := (gmap string string).

Record Credentials := {
  email : option string;
  password : option string;
  appState : option string
}.

(** The handle returned by a successful login, as the answers it gives. *)
Record Api := {
  getCurrentUserID : response string;
  getUserInfo : string -> response (gmap string User);
  getFriendsList : response (list Friend.t);
  getThreadList : nat -> nat -> response (list Thread.t);
  getThreadInfo : string -> response Thread.t;
  getAppState : string
}.

(** ** The session object *)

Record Messer := {
  api : option Api;
  user : option User;
  userCache : gmap string Friend.t;   (* cached by userID *)
  threadCache : gmap string Thread.t; (* cached by id *)
  threadMap : Obj.t string;           (* maps a thread/user name to a thread id *)
  threadStack : list string;
  lastThread : option string
}.

(** [new Messer()] *)
Definition new_Messer : Messer :=
  {| api := None; user := None; userCache := ∅; threadCache := ∅;
     threadMap := []; threadStack := []; lastThread := None |}.

Definition set_api (a : Api) (s : Messer) : Messer :=
  {| api := Some a; user := user s; userCache := userCache s;
     threadCache := threadCache s; threadMap := threadMap s;
     threadStack := threadStack s; lastThread := lastThread s |}.

Definition set_user (u : User) (s : Messer) : Messer :=
  {| api := api s; user := Some u; userCache := userCache s;
     threadCache := threadCache s; threadMap := threadMap s;
     threadStack := threadStack s; lastThread := lastThread s |}.

Definition set_userCache (c : gmap string Friend.t) (s : Messer) : Messer :=
  {| api := api s; user := user s; userCache := c;
     threadCache := threadCache s; threadMap := threadMap s;
     threadStack := threadStack s; lastThread := lastThread s |}.

Definition set_threadCache (c : gmap string Thread.t) (s : Messer) : Messer :=
  {| api := api s; user := user s; userCache := userCache s;
     threadCache := c; threadMap := threadMap s;
     threadStack := threadStack s; lastThread := lastThread s |}.

Definition set_threadMap (m : Obj.t string) (s : Messer) : Messer :=
  {| api := api s; user := user s; userCache := userCache s;
     threadCache := threadCache s; threadMap := m;
     threadStack := threadStack s; lastThread := lastThread s |}.

(** ** Observable effects *)

Inductive request :=
| ReqCurrentUserID
| ReqUserInfo (id : string)
| ReqFriendsList
| ReqThreadList (start limit : nat)
| ReqThreadInfo (id : string).

Inductive event :=
| Logged (v : jsval)                  (* [log(v)] *)
| Login                               (* the login call of the backend *)
| Call (r : request)                  (* a call on [this.api] *)
| SavedAppState (blob : string)       (* [helpers.saveAppState] *)
| SetThreadMap (key id : string)      (* [this.threadMap[key] = id] *)
| SetUserCache (id : string)          (* [this.userCache[id] = u] *)
| CacheThread (th : Thread.t)         (* [this.cacheThread(th)] *)
| HandlerCalled (rawCommand : string) (* a command handler is called *)
| ReplCallback.                       (* [callback(null)] *)

(** The session together with the effects performed so far, oldest first. *)
Record World := {
  messer : Messer;
  trace : list event
}.

(** ** A state monad with abrupt completion *)

Definition M (A : Type) : Type := World -> completion A * World.

Definition ret {A} (a : A) : M A := fun w => (Normal a, w).

Definition fail {A} (r : jsval) : M A := fun w => (Abrupt r, w).

Definition bind {A B} (m : M A) (k : A -> M B) : M B :=
  fun w =>
    match m w with
    | (Normal a, w') => k a w'
    | (Abrupt r, w') => (Abrupt r, w')
    end.

(** [p.catch(h)] / [try .. catch]. *)
Definition catch {A} (m : M A) (h : jsval -> M A) : M A :=
  fun w =>
    match m w with
    | (Normal a, w') => (Normal a, w')
    | (Abrupt r, w') => h r w'
    end.

Definition emit (e : event) : M unit :=
  fun w => (Normal tt, {| messer := messer w; trace := trace w ++ [e] |}).

Definition this : M Messer := fun w => (Normal (messer w), w).

Definition update (f : Messer -> Messer) : M unit :=
  fun w => (Normal tt, {| messer := f (messer w); trace := trace w |}).

(** The answer of the backend, or the rejection it causes. *)
Definition answer {A} (r : response A) : M A :=
  match r with
  | Data a => ret a
  | Failure err => fail err
  end.

Fixpoint forEach {A} (l : list A) (f : A -> M unit) : M unit :=
  match l with
  | [] => ret tt
  | x :: r => bind (f x) (fun _ => forEach r f)
  end.

Declare Scope js_scope.
Delimit Scope js_scope with js.
Notation "x <- m ;; k" := (bind m (fun x => k))
  (at level 100, m at next level, right associativity) : js_scope.
Notation "m ;; k" := (bind m (fun _ => k))
  (at level 100, right associativity) : js_scope.
Local Open Scope js_scope.

Definition log (v : jsval) : M unit := emit (Logged v).

(** ** The cache *)

(** [Messer.prototype.cacheThread] *)
Definition cacheThread (thread : Thread.t) (s : Messer) : Messer :=
  match threadCache s !! Thread.threadID thread with
  | Some _ => s
  | None =>
      set_threadCache
        (<[Thread.threadID thread :=
             {| Thread.name := Thread.name thread;
                Thread.threadID := Thread.threadID thread;
                Thread.others := [] |}]> (threadCache s)) s
  end.

Definition cacheThreadM (thread : Thread.t) : M unit :=
  emit (CacheThread thread) ;; update (cacheThread thread).

(** The predicate passed to [find] in [getThreadByName]. *)
Definition name_matches (name n : string) : bool :=
  JsString.startsWith (JsString.toLowerCase n) (JsString.toLowerCase name).

(** [Messer.prototype.getThreadByName] *)
Definition getThreadByName (name : string) (s : Messer) : completion Thread.t * Messer :=
  let threadName := find (name_matches name) (Obj.keys (threadMap s)) in
  let threadID := Obj.get (threadMap s) (property_key threadName) in
  match threadCache s !! property_key threadID with
  | None => (Abrupt (TypeError "Cannot read property 'name' of undefined"), s)
  | Some th =>
      match Thread.name th with
      | None => (Abrupt (TypeError "Cannot read property 'length' of undefined"), s)
      | Some nm =>
          if (String.length nm =? 0)%nat then
            let th' := Thread.set_name threadName th in
            (Normal th',
             set_threadCache (<[property_key threadID := th']> (threadCache s)) s)
          else (Normal th, s)
      end
  end.

(** [Messer.prototype.getThreadById], first half: the promise executor.
    [Some c] when the promise is settled at once, [None] when a
    [getThreadInfo] request has been issued and its callback is awaited. *)
Definition getThreadById_executor (threadID : string) (w : World)
  : option (completion Thread.t) * World :=
  match threadCache (messer w) !! threadID with
  | Some thread => (Some (Normal thread), w)
  | None =>
      match api (messer w) with
      | None =>
          (Some (Abrupt (TypeError "Cannot read property 'getThreadInfo' of null")), w)
      | Some _ =>
          (None, {| messer := messer w;
                    trace := trace w ++ [Call (ReqThreadInfo threadID)] |})
      end
  end.

(** Second half: the callback [(err, data) => ...] of [getThreadInfo]. *)
Definition getThreadById_callback (r : response Thread.t) : M Thread.t :=
  match r with
  | Failure err => fail err
  | Data thread => cacheThreadM thread ;; ret thread
  end.

(** [getThreadById] when nothing else runs between the request and its
    callback. *)
Definition getThreadById (threadID : string) : M Thread.t :=
  fun w =>
    match getThreadById_executor threadID w with
    | (Some c, w') => (c, w')
    | (None, w') =>
        match api (messer w') with
        | Some a => getThreadById_callback (getThreadInfo a threadID) w'
        | None => (Abrupt (TypeError "Cannot read property 'getThreadInfo' of null"), w')
        end
    end.

(** ** The bulk fetch *)

(** The body of [data.forEach((u) => ...)] in [fetchCurrentUser]. *)
Definition storeFriend (u : Friend.t) : M unit :=
  emit (SetThreadMap (Friend.display u) (Friend.userID u)) ;;
  update (fun s => set_threadMap
                     (Obj.set (threadMap s) (Friend.display u) (Friend.userID u)) s) ;;
  emit (SetUserCache (Friend.userID u)) ;;
  update (fun s => set_userCache (<[Friend.userID u := u]> (userCache s)) s).

(** [Object.assign(user, src)]: the properties of [src] win; an undefined
    source is ignored. *)
Definition Object_assign (target : User) (src : option User) : User :=
  match src with
  | Some fields => fields ∪ target
  | None => target
  end.

(** [Messer.prototype.fetchCurrentUser] *)
Definition fetchCurrentUser : M User :=
  s <- this ;;
  match api s with
  | None => fail (TypeError "Cannot read property 'getCurrentUserID' of null")
  | Some a =>
      emit (Call ReqCurrentUserID) ;;
      userID <- answer (getCurrentUserID a) ;;
      let user : User := {[ "userID" := userID ]} in
      emit (Call (ReqUserInfo userID)) ;;
      data <- answer (getUserInfo a userID) ;;
      let user := Object_assign user (data !! userID) in
      emit (Call ReqFriendsList) ;;
      data <- answer (getFriendsList a) ;;
      forEach data storeFriend ;;
      emit (Call (ReqThreadList 0 20)) ;;
      match getThreadList a 0 20 with
      | Data threads => forEach threads cacheThreadM
      | Failure _ => ret tt
      end ;;
      ret user
  end.

(** ** Login and command dispatch *)

(** What the call of a command handler leads to.  A handler is expected to
    return a promise; the call can also throw, or return no promise. *)
Inductive handled :=
| Throws (e : jsval)          (* the call itself throws [e] *)
| ReturnsUndefined            (* the call returns [undefined] *)
| Fulfils (message : string)  (* the promise returned is fulfilled *)
| Rejects (err : jsval)       (* the promise returned is rejected *)
| Pends.                      (* the promise returned is never settled *)

(** A command handler, called with the session and the raw command. *)
Definition Handler : Type := string -> World -> handled * World.

Section Session.

(** The login function of the backend module. *)
Variable facebook : Credentials -> response Api.

(** [getCommandHandler] of the command module: the handler registered
    under a name, if any. *)
Variable getCommandHandler : string -> option Handler.

(** [Messer.prototype.authenticate] *)
Definition authenticate (credentials : Credentials) : M unit :=
  log (Str "Logging in...") ;;
  emit Login ;;
  match facebook credentials with
  | Failure err =>
      fail (Str ("Failed to login as [" +:+ property_key (email credentials)
                 +:+ "] - " +:+ to_String err))
  | Data fbApi =>
      emit (SavedAppState (getAppState fbApi)) ;;
      update (set_api fbApi) ;;
      log (Str "Fetching your details...") ;;
      user <- fetchCurrentUser ;;
      update (set_user user)
  end.

(** [args[0]] in [processCommand]. *)
Definition command_name (rawCommand : string) : string :=
  match JsString.split " " (JsString.remove_first "010" rawCommand) with
  | a :: _ => a
  | [] => "undefined"
  end.

(** [Messer.prototype.processCommand] *)
Definition processCommand (rawCommand : string) : M unit :=
  if (String.length (JsString.trim rawCommand) =? 0)%nat then ret tt
  else
    match getCommandHandler (command_name rawCommand) with
    | None => log (Str "Invalid command - check your syntax")
    | Some commandHandler =>
        fun w =>
          match commandHandler rawCommand
                  {| messer := messer w; trace := trace w ++ [HandlerCalled rawCommand] |}
          with
          | (Throws e, w') => (Abrupt e, w')
          | (ReturnsUndefined, w') =>
              (Abrupt (TypeError "Cannot read property 'then' of undefined"), w')
          | (Fulfils message, w') => (log (Str message) ;; emit ReplCallback) w'
          | (Rejects err, w') => (log err ;; emit ReplCallback) w'
          | (Pends, w') => (Normal tt, w')
          end
    end.

End Session.

(** ** Interleaved calls of getThreadById

    The client runs on one thread: the executor of a call runs to its end,
    and the callback of a request runs later, when the backend answers.
    Between the two, other calls may start.  What the backend answers to a
    request is part of the schedule. *)

Module Loop.

Record t := mk {
  world : World;
  pending : list (nat * string);              (* caller and identifier of
                                                 each request in flight *)
  settled : list (nat * completion Thread.t)  (* promises settled so far *)
}.

Inductive action :=
| Invoke (caller : nat) (threadID : string)   (* [getThreadById(threadID)] *)
| Respond (k : nat) (r : response Thread.t).  (* the backend answers the
                                                 k-th request in flight
                                                 with [r] *)

Definition step (st : t) (a : action) : t :=
  match a with
  | Invoke caller threadID =>
      match getThreadById_executor threadID (world st) with
      | (Some c, w') => mk w' (pending st) (settled st ++ [(caller, c)])
      | (None, w') => mk w' (pending st ++ [(caller, threadID)]) (settled st)
      end
  | Respond k r =>
      match pending st !! k with
      | Some (caller, _) =>
          match getThreadById_callback r (world st) with
          | (c, w') => mk w' (delete k (pending st)) (settled st ++ [(caller, c)])
          end
      | None => st
      end
  end.

Definition run (st : t) (l : list action) : t := foldl step st l.

Definition is_fetch (threadID : string) (e : event) : bool :=
  match e with
  | Call (ReqThreadInfo id) => String.eqb id threadID
  | _ => false
  end.

(** Number of [getThreadInfo] requests issued for an identifier. *)
Definition fetches (threadID : string) (st : t) : nat :=
  length (List.filter (is_fetch threadID) (trace (world st))).

End Loop.

(** ** Auxiliary definitions for the statements *)

(** The entry that [cacheThread] builds for a thread record. *)
Definition projection (thread : Thread.t) : Thread.t :=
  {| Thread.name := Thread.name thread;
     Thread.threadID := Thread.threadID thread;
     Thread.others := [] |}.

Definition is_CacheThread (e : event) : bool :=
  match e with
  | CacheThread _ => true
  | _ => false
  end.

(** The effects of storing one friend. *)
Definition friend_events (u : Friend.t) : list event :=
  [SetThreadMap (Friend.display u) (Friend.userID u); SetUserCache (Friend.userID u)].

(** The session after [data.forEach] in [fetchCurrentUser]. *)
Definition storeFriends (friends : list Friend.t) (s : Messer) : Messer :=
  foldl (fun s u =>
           set_userCache (<[Friend.userID u := u]> (userCache s))
             (set_threadMap
                (Obj.set (threadMap s) (Friend.display u) (Friend.userID u)) s))
        s friends.

Definition with_trace (w : World) (es : list event) : World :=
  {| messer := messer w; trace := trace w ++ es |}.

(** The session after [threads.forEach] in [fetchCurrentUser]. *)
Definition registerThreads (threads : list Thread.t) (s : Messer) : Messer :=
  foldl (fun s th => cacheThread th s) s threads.

(** The threads that the first page brings: none when the request fails. *)
Definition first_page (a : Api) : list Thread.t :=
  match getThreadList a 0 20 with
  | Data threads => threads
  | Failure _ => []
  end.

(** Every cached thread is a projection: it has no property besides name
    and threadID. *)
Definition projected (s : Messer) : Prop :=
  forall id entry, threadCache s !! id = Some entry -> Thread.others entry = [].

(** The user object that [fetchCurrentUser] builds. *)
Definition fetched_user (userID : string) (data : gmap string User) : User :=
  Object_assign {[ "userID" := userID ]} (data !! userID).

(** ** Sample sessions *)

Module Sample.

Definition alice : Friend.t := Friend.mk "1" (Some "Alice") None.
Definition alina : Friend.t := Friend.mk "2" None (Some "alina").

Definition alice_thread : Thread.t :=
  Thread.mk (Some "") "1" [("snippet", "see you")].
Definition alina_thread : Thread.t :=
  Thread.mk (Some "alina") "2" [].
Definition group_thread : Thread.t :=
  Thread.mk (Some "Climbing") "3" [("participants", "1,2,100")].

Definition fbApi : Api :=
  {| getCurrentUserID := Data "100";
     getUserInfo := fun _ => Data {[ "100" := {[ "name" := "Me" ]} ]};
     getFriendsList := Data [alice; alina];
     getThreadList := fun _ _ => Data [alice_thread; alina_thread];
     getThreadInfo := fun id =>
       if String.eqb id "3" then Data group_thread
       else Failure (BackendError "no such thread");
     getAppState := "cookie" |}.

(** The same backend with a failing thread list. *)
Definition fbApi_no_threads : Api :=
  {| getCurrentUserID := getCurrentUserID fbApi;
     getUserInfo := getUserInfo fbApi;
     getFriendsList := getFriendsList fbApi;
     getThreadList := fun _ _ => Failure (BackendError "thread list unavailable");
     getThreadInfo := getThreadInfo fbApi;
     getAppState := getAppState fbApi |}.

(** The same backend with a failing friends list. *)
Definition fbApi_no_friends : Api :=
  {| getCurrentUserID := getCurrentUserID fbApi;
     getUserInfo := getUserInfo fbApi;
     getFriendsList := Failure (BackendError "friends list unavailable");
     getThreadList := getThreadList fbApi;
     getThreadInfo := getThreadInfo fbApi;
     getAppState := getAppState fbApi |}.

Definition logged_in (a : Api) : World :=
  {| messer := set_api a new_Messer; trace := [] |}.

(** The session after the bulk fetch. *)
Definition ready : World := snd (fetchCurrentUser (logged_in fbApi)).
Definition ready_no_threads : World :=
  snd (fetchCurrentUser (logged_in fbApi_no_threads)).

Definition me : User := {[ "name" := "Me"; "userID" := "100" ]}.

Definition refuse (c : Credentials) : response Api :=
  Failure (BackendError "Wrong username/password.").

Definition credentials (secret : string) : Credentials :=
  {| email := Some "me@example.org"; password := Some secret; appState := None |}.

Definition echo : Handler := fun raw w => (Fulfils ("sent: " +:+ raw), w).
Definition broken : Handler := fun raw w => (Rejects (Str "no such friend"), w).
Definition faulty : Handler := fun raw w => (Throws (Str "boom"), w).

Definition registry (name : string) : option Handler :=
  if String.eqb name "message" then Some echo
  else if String.eqb name "reply" then Some broken
  else if String.eqb name "crash" then Some faulty
  else None.

End Sample.

(** ** Start-up *)

Module Boot.

(** The process after [start]: the session and its effects, whether
    [api.listen] has been called and whether the read-eval loop runs. *)
Record t := mk {
  world : World;
  listening : bool;
  repl : bool
}.

Section Start.

Variable facebook : Credentials -> response Api.

(** [Messer.prototype.start], from the point where the promise of
    [helpers.getCredentials()] is settled with [credentials]. *)
Definition start (credentials : completion Credentials) (p : t) : t :=
  match
    match credentials with
    | Normal c => authenticate facebook c (world p)
    | Abrupt r => (Abrupt r, world p)
    end
  with
  | (Abrupt err, w) => mk (with_trace w [Logged err]) (listening p) (repl p)
  | (Normal _, w) =>
      match user (messer w) with
      | None =>
          mk (with_trace w [Logged (TypeError "Cannot read property 'name' of null")])
             (listening p) (repl p)
      | Some u =>
          let w1 :=
            with_trace w
              [Logged (Str ("Successfully logged in as " +:+ property_key (u !! "name")))] in
          match api (messer w) with
          | None =>
              mk (with_trace w1 [Logged (TypeError "Cannot read property 'listen' of null")])
                 (listening p) (repl p)
          | Some _ => mk w1 true true
          end
      end
  end.

End Start.

End Boot.

(** ** helpers.js: where the credentials come from

    The callbacks of [getCredentials] are run one after the other, as the
    event loop does.  An exception that leaves a callback is uncaught: the
    process ends and no later callback runs. *)

Module Helpers.

Definition APP_STATE_FILEPATH : string := "./appstate.json".
Definition CREDS_FILEPATH : string := "./config.json".

(** What the helpers find around them. *)
Record Env := {
  readFile : string -> response string;   (* [fs.readFile(path, cb)]: the
                                             content, or the error *)
  argv2 : option string;                  (* [process.argv[2]] *)
  prompt_get : response Credentials;      (* the answer of [prompt.get] *)
  parse_appState : string -> option string;
                                          (* [JSON.parse] of the app state
                                             file; [None] when it throws *)
  parse_credentials : string -> option Credentials;
                                          (* [JSON.parse] of the credentials
                                             file; [None] when it throws *)
  stringify : string -> string            (* [JSON.stringify] of an app state *)
}.

Inductive task :=
| AppStateRead                (* callback of the first [fs.readFile] *)
| CredsRead (path : string)   (* callback of the second [fs.readFile] *)
| Prompted.                   (* callback of [prompt.get] *)

Record Run := {
  promise : option (completion Credentials); (* [None]: not settled *)
  uncaught : bool;                           (* a callback threw *)
  reads : list string;                       (* files asked for, in order *)
  logged : list string;
  queue : list task                          (* callbacks still to run *)
}.

(** [resolve(c)] and [reject(r)]: the first settlement stays. *)
Definition settle (c : completion Credentials) (r : Run) : Run :=
  match promise r with
  | Some _ => r
  | None =>
      {| promise := Some c; uncaught := uncaught r; reads := reads r;
         logged := logged r; queue := queue r |}
  end.

Definition request (path : string) (t : task) (r : Run) : Run :=
  {| promise := promise r; uncaught := uncaught r; reads := reads r ++ [path];
     logged := logged r; queue := queue r ++ [t] |}.

(** [process.argv[2] || CREDS_FILEPATH] *)
Definition creds_path (env : Env) : string :=
  match argv2 env with
  | Some (String c s) => String c s
  | _ => CREDS_FILEPATH
  end.

(** [promptCredentials()], up to the call of [prompt.get]. *)
Definition promptCredentials (r : Run) : Run :=
  {| promise := promise r; uncaught := uncaught r; reads := reads r;
     logged := logged r ++
       ["Enter your Facebook credentials - your password will not be visible as you type it in"];
     queue := queue r ++ [Prompted] |}.

(** One callback; [true] when it throws. *)
Definition callback (env : Env) (t : task) (r : Run) : bool * Run :=
  match t with
  | AppStateRead =>
      match readFile env APP_STATE_FILEPATH with
      | Failure _ =>
          (* the second read is asked for, then [JSON.parse(undefined)] throws *)
          (true, request (creds_path env) (CredsRead (creds_path env)) r)
      | Data appstate =>
          match parse_appState env appstate with
          | Some v =>
              (false,
               settle (Normal {| email := None; password := None; appState := Some v |}) r)
          | None => (true, r)
          end
      end
  | CredsRead path =>
      match readFile env path with
      | Failure _ => (false, promptCredentials r)
      | Data creds =>
          match parse_credentials env creds with
          | Some c => (false, settle (Normal c) r)
          | None => (true, r)
          end
      end
  | Prompted =>
      match prompt_get env with
      | Failure err => (false, settle (Abrupt err) r)
      | Data result => (false, settle (Normal result) r)
      end
  end.

Definition crash (r : Run) : Run :=
  {| promise := promise r; uncaught := true; reads := reads r;
     logged := logged r; queue := [] |}.

Definition pop (r : Run) : option (task * Run) :=
  match queue r with
  | [] => None
  | t :: q =>
      Some (t, {| promise := promise r; uncaught := uncaught r; reads := reads r;
                  logged := logged r; queue := q |})
  end.

Fixpoint loop (env : Env) (fuel : nat) (r : Run) : Run :=
  match fuel with
  | O => r
  | S n =>
      match pop r with
      | None => r
      | Some (t, r') =>
          match callback env t r' with
          | (true, r'') => crash r''
          | (false, r'') => loop env n r''
          end
      end
  end.

(** [getCredentials()]: the first read is asked for and the callbacks run
    until none is left (there are at most three). *)
Definition getCredentials (env : Env) : Run :=
  loop env 3
    {| promise := None; uncaught := false; reads := [APP_STATE_FILEPATH];
       logged := []; queue := [AppStateRead] |}.

(** [saveAppState(appstate)]: the file is written. *)
Definition saveAppState (appstate : string) (env : Env) : Env :=
  {| readFile := fun path =>
       if String.eqb path APP_STATE_FILEPATH then Data (stringify env appstate)
       else readFile env path;
     argv2 := argv2 env; prompt_get := prompt_get env;
     parse_appState := parse_appState env;
     parse_credentials := parse_credentials env;
     stringify := stringify env |}.

End Helpers.

(** ** Invariants of the session *)

(** Every cached thread is stored under its own identifier. *)
Definition keyed (s : Messer) : Prop :=
  forall id entry, threadCache s !! id = Some entry -> Thread.threadID entry = id.

(** The entries of [s] are entries of [s'], as they are. *)
Definition extends (s s' : Messer) : Prop :=
  forall id entry, threadCache s !! id = Some entry -> threadCache s' !! id = Some entry.

(** Every identifier of the name index has a cached thread with a name. *)
Definition resolves (s : Messer) : Prop :=
  forall k id, Obj.get (threadMap s) k = Some id ->
    exists th nm, threadCache s !! id = Some th /\ Thread.name th = Some nm.

(** The two invariants of the thread cache. *)
Definition sound (s : Messer) : Prop := keyed s /\ projected s.

Definition is_SavedAppState (e : event) : bool :=
  match e with
  | SavedAppState _ => true
  | _ => false
  end.

(** Number of calls of [getThreadById] in a schedule. *)
Definition invocations (l : list Loop.action) : nat :=
  length (List.filter (fun a => match a with Loop.Invoke _ _ => true | _ => false end) l).

(** [tokens.join(sep)] *)
Definition join (sep : string) (tokens : list string) : string :=
  String.concat sep tokens.

Fixpoint contains (c : ascii) (s : string) : bool :=
  match s with
  | EmptyString => false
  | String a r => Ascii.eqb a c || contains c r
  end.

(** The words of the specification for the name of a command: the line is
    the input without its first line feed, and the first token of a line
    is its text up to the first space. *)
Inductive first_line_feed_removed : string -> string -> Prop :=
| no_line_feed (s : string) :
    contains "010" s = false -> first_line_feed_removed s s
| one_line_feed (a b : string) :
    contains "010" a = false ->
    first_line_feed_removed (a +:+ String "010" b) (a +:+ b).

Inductive first_token : string -> string -> Prop :=
| whole_line (s : string) :
    contains " " s = false -> first_token s s
| until_space (name args : string) :
    contains " " name = false -> first_token (name +:+ String " " args) name.

(** ** More sample data *)

Module Demo.

(** Two friends with one name, and a friend without any name. *)
Definition sam1 : Friend.t := Friend.mk "5" (Some "Sam") None.
Definition sam2 : Friend.t := Friend.mk "6" (Some "Sam") (Some "Samuel").
Definition nameless : Friend.t := Friend.mk "9" None None.

(** A backend whose thread page names the thread "6" twice, whose profile
    answer has no entry for the user, and whose thread records all carry
    the identifier "77". *)
Definition fbApi : Api :=
  {| getCurrentUserID := Data "100";
     getUserInfo := fun _ => Data ∅;
     getFriendsList := Data [sam1; sam2; nameless];
     getThreadList := fun _ _ =>
       Data [Thread.mk (Some "") "9" []; Thread.mk (Some "Sam") "6" [];
             Thread.mk (Some "later") "6" []];
     getThreadInfo := fun _ => Data (Thread.mk (Some "other") "77" []);
     getAppState := "cookie" |}.

Definition ready : World := snd (fetchCurrentUser (Sample.logged_in fbApi)).

Definition accept (c : Credentials) : response Api := Data Sample.fbApi.

Definition fresh : World := {| messer := new_Messer; trace := [] |}.

(** A second record for the thread "3", as a later answer would carry. *)
Definition renamed_group : Thread.t :=
  Thread.mk (Some "Renamed") "3" [("participants", "1,2")].

(** A first run: no file can be read; the user would answer the prompt. *)
Definition first_run : Helpers.Env :=
  {| Helpers.readFile := fun _ => Failure (Str "ENOENT: no such file or directory");
     Helpers.argv2 := None;
     Helpers.prompt_get := Data (Sample.credentials "hunter2");
     Helpers.parse_appState := fun text => Some text;
     Helpers.parse_credentials := fun _ => None;
     Helpers.stringify := fun appstate => appstate |}.

End Demo.

(** * Properties *)

(** ** Strings and property lists *)

Lemma trim_empty (s : string) :
  (String.length (JsString.trim s) =? 0)%nat = JsString.all_whitespace s.
Proof.
  unfold JsString.trim.
  induction s as [|c s IH]; [reflexivity|].
  cbn [JsString.trimStart JsString.all_whitespace].
  destruct (JsString.is_whitespace c) eqn:Hc; [exact IH|].
  cbn [JsString.trimEnd]. rewrite Hc.
  destruct (JsString.trimEnd s); reflexivity.
Qed.

Lemma split_nonempty (c : ascii) (s : string) : JsString.split c s <> [].
Proof.
  destruct s as [|a s]; cbn; [discriminate|].
  destruct (Ascii.eqb a c); [discriminate|].
  destruct (JsString.split c s); discriminate.
Qed.

Lemma find_first {A} (p : A -> bool) (before after : list A) (x : A) :
  Forall (fun y => p y = false) before ->
  p x = true ->
  find p (before ++ x :: after) = Some x.
Proof.
  induction 1 as [|y before Hy _ IH]; intros Hx; cbn.
  - now rewrite Hx.
  - rewrite Hy. now apply IH.
Qed.

Lemma find_none {A} (p : A -> bool) (l : list A) :
  Forall (fun y => p y = false) l -> find p l = None.
Proof.
  induction 1 as [|y l Hy _ IH]; cbn; [reflexivity|]. now rewrite Hy.
Qed.

Lemma index_keys_none (ks : list string) :
  Forall (fun k => Obj.is_index k = false) ks -> Obj.index_keys ks = [].
Proof.
  induction 1 as [|k ks Hk _ IH]; cbn; [reflexivity|].
  unfold Obj.is_index in Hk. destruct (Obj.array_index k); [discriminate|exact IH].
Qed.

(** Without array indices among the keys, [Object.keys] lists them in
    creation order. *)
Lemma keys_creation_order {V} (o : Obj.t V) :
  Forall (fun k => Obj.is_index k = false) (Obj.names o) ->
  Obj.keys o = Obj.names o.
Proof.
  intros H. unfold Obj.keys. rewrite (index_keys_none _ H). cbn.
  induction H as [|k ks Hk _ IH]; [reflexivity|].
  rewrite filter_cons_True by exact Hk. now f_equal.
Qed.

Lemma get_set_eq {V} (o : Obj.t V) (k : string) (v : V) :
  Obj.get (Obj.set o k v) k = Some v.
Proof.
  induction o as [|[k' v'] o IH]; cbn.
  - now rewrite String.eqb_refl.
  - destruct (String.eqb k k') eqn:E; cbn; rewrite ?String.eqb_refl, ?E; auto.
Qed.

Lemma get_set_ne {V} (o : Obj.t V) (k j : string) (v : V) :
  k <> j -> Obj.get (Obj.set o k v) j = Obj.get o j.
Proof.
  intros Hne.
  assert (Hjk : String.eqb j k = false) by (apply String.eqb_neq; congruence).
  induction o as [|[k' v'] o IH]; cbn.
  - now rewrite Hjk.
  - destruct (String.eqb k k') eqn:E; cbn.
    + apply String.eqb_eq in E. subst k'. now rewrite Hjk.
    + now rewrite IH.
Qed.

Lemma get_set_is_Some {V} (o : Obj.t V) (k j : string) (v : V) :
  is_Some (Obj.get o j) -> is_Some (Obj.get (Obj.set o k v) j).
Proof.
  intros H. destruct (decide (k = j)) as [->|Hne].
  - rewrite get_set_eq. eauto.
  - now rewrite get_set_ne.
Qed.

(** A new key goes to the end; a known key keeps its place. *)
Lemma names_set {V} (o : Obj.t V) (k : string) (v : V) :
  Obj.names (Obj.set o k v) =
    match Obj.get o k with
    | Some _ => Obj.names o
    | None => (Obj.names o ++ [k])%list
    end.
Proof.
  unfold Obj.names. induction o as [|[k' v'] o IH]; cbn; [reflexivity|].
  destruct (String.eqb k k') eqn:E; cbn.
  - apply String.eqb_eq in E. now subst.
  - rewrite IH. now destruct (Obj.get o k).
Qed.

(** ** cacheThread *)

Lemma cacheThread_present (s : Messer) (thread entry : Thread.t) :
  threadCache s !! Thread.threadID thread = Some entry ->
  cacheThread thread s = s.
Proof. intros H. unfold cacheThread. now rewrite H. Qed.

Lemma cacheThread_absent (s : Messer) (thread : Thread.t) :
  threadCache s !! Thread.threadID thread = None ->
  cacheThread thread s =
    set_threadCache (<[Thread.threadID thread := projection thread]> (threadCache s)) s.
Proof. intros H. unfold cacheThread. now rewrite H. Qed.

Lemma cacheThread_lookup (s : Messer) (thread : Thread.t) :
  threadCache (cacheThread thread s) !! Thread.threadID thread =
    match threadCache s !! Thread.threadID thread with
    | Some entry => Some entry
    | None => Some (projection thread)
    end.
Proof.
  destruct (threadCache s !! Thread.threadID thread) as [entry|] eqn:E.
  - now rewrite (cacheThread_present _ _ _ E).
  - rewrite (cacheThread_absent _ _ E). cbn. apply lookup_insert_eq.
Qed.

(** C3. cacheThread is idempotent, first write wins: when the thread cache
    already has an entry for the identifier of [thread], [cacheThread thread]
    leaves the whole session, and so the cache, unchanged, whatever name
    [thread] carries; the entry, with the name stored first, is still the
    one found under the identifier. *)
Theorem cacheThread_first_write_wins (s : Messer) (thread entry : Thread.t) :
  threadCache s !! Thread.threadID thread = Some entry ->
  cacheThread thread s = s /\
  threadCache (cacheThread thread s) !! Thread.threadID thread = Some entry.
Proof.
  intros H. rewrite (cacheThread_present _ _ _ H). now split.
Qed.

Lemma cacheThread_first_write_wins_witness :
  cacheThread (Thread.mk (Some "Renamed") "2" [("snippet", "new")]) (messer Sample.ready)
  = messer Sample.ready /\
  threadCache
    (cacheThread (Thread.mk (Some "Renamed") "2" [("snippet", "new")])
       (messer Sample.ready)) !! "2"
  = Some (Thread.mk (Some "alina") "2" []).
Proof.
  apply (cacheThread_first_write_wins (messer Sample.ready)
           (Thread.mk (Some "Renamed") "2" [("snippet", "new")])
           (Thread.mk (Some "alina") "2" [])).
  vm_compute. reflexivity.
Defined.

(** Two calls for one identifier with different names: the second changes
    nothing, and on a cache without the identifier the name kept is the
    one of the first call. *)
Lemma cacheThread_twice (s : Messer) (first again : Thread.t) :
  Thread.threadID again = Thread.threadID first ->
  cacheThread again (cacheThread first s) = cacheThread first s /\
  (threadCache s !! Thread.threadID first = None ->
   Thread.name <$> threadCache (cacheThread again (cacheThread first s))
                     !! Thread.threadID first = Some (Thread.name first)).
Proof.
  intros Hid.
  assert (Hpresent : exists e,
             threadCache (cacheThread first s) !! Thread.threadID again = Some e).
  { rewrite Hid, cacheThread_lookup. destruct (_ !! _); eauto. }
  destruct Hpresent as [e He].
  rewrite (cacheThread_present _ _ _ He). split; [reflexivity|].
  intros Hnone. now rewrite cacheThread_lookup, Hnone.
Qed.

(** ** getThreadByName *)

(** C4. The name lookup takes the first key, in the order of Object.keys,
    that starts with the query when both are put in lower case.  When that
    key is [threadName], the index maps it to [id], and the thread cache
    holds an entry with a name for [id], getThreadByName returns that
    cached entry; an empty name is first replaced by [threadName], in the
    cache as well.  Without array indices among the keys the order of
    Object.keys is the order in which the keys were created
    ([keys_creation_order]). *)
Theorem getThreadByName_first_match (s : Messer) (query threadName id nm : string)
    (before after : list string) (th : Thread.t) :
  Obj.keys (threadMap s) = (before ++ threadName :: after)%list ->
  Forall (fun n => name_matches query n = false) before ->
  name_matches query threadName = true ->
  Obj.get (threadMap s) threadName = Some id ->
  threadCache s !! id = Some th ->
  Thread.name th = Some nm ->
  getThreadByName query s =
    if (String.length nm =? 0)%nat
    then (Normal (Thread.set_name (Some threadName) th),
          set_threadCache
            (<[id := Thread.set_name (Some threadName) th]> (threadCache s)) s)
    else (Normal th, s).
Proof.
  intros Hkeys Hbefore Hmatch Hid Hth Hnm.
  unfold getThreadByName.
  rewrite Hkeys, (find_first _ _ _ _ Hbefore Hmatch). cbn [property_key].
  rewrite Hid. cbn [property_key]. now rewrite Hth, Hnm.
Qed.

Lemma getThreadByName_first_match_witness :
  getThreadByName "ali" (messer Sample.ready) =
    (Normal (Thread.mk (Some "Alice") "1" []),
     set_threadCache
       (<["1" := Thread.mk (Some "Alice") "1" []]> (threadCache (messer Sample.ready)))
       (messer Sample.ready)).
Proof.
  apply (getThreadByName_first_match (messer Sample.ready) "ali" "Alice" "1" ""
           [] ["alina"] (Thread.mk (Some "") "1" []));
    [reflexivity | constructor | reflexivity | reflexivity
    | vm_compute; reflexivity | reflexivity].
Defined.

(** C4, as stated, fails: a key that starts with the query is not enough.
    After a bulk fetch whose thread page brought no thread for Alice, the
    query "ali" finds the key "Alice" and the call throws. *)
Lemma getThreadByName_uncached_contact :
  Obj.keys (threadMap (messer Sample.ready_no_threads)) = ["Alice"; "alina"] /\
  name_matches "ali" "Alice" = true /\
  getThreadByName "ali" (messer Sample.ready_no_threads) =
    (Abrupt (TypeError "Cannot read property 'name' of undefined"),
     messer Sample.ready_no_threads) /\
  ~ (forall (s : Messer) (query threadName : string) (before after : list string),
        Obj.keys (threadMap s) = (before ++ threadName :: after)%list ->
        Forall (fun n => name_matches query n = false) before ->
        name_matches query threadName = true ->
        exists th s', getThreadByName query s = (Normal th, s')).
Proof.
  split; [reflexivity|]. split; [reflexivity|]. split; [vm_compute; reflexivity|].
  intros H.
  destruct (H (messer Sample.ready_no_threads) "ali" "Alice" [] ["alina"]
              eq_refl (List.Forall_nil _) eq_refl) as (th & s' & Hget).
  vm_compute in Hget. discriminate Hget.
Qed.

(** C5. When no key of the index starts with the query, [find] yields
    undefined and the lookups go to the key "undefined": unless a contact
    or a thread is stored under that very key, getThreadByName throws a
    TypeError; no NotFound value is returned to the caller. *)
Theorem getThreadByName_no_match_throws (s : Messer) (query : string) :
  Forall (fun n => name_matches query n = false) (Obj.keys (threadMap s)) ->
  Obj.get (threadMap s) "undefined" = None ->
  threadCache s !! "undefined" = None ->
  getThreadByName query s =
    (Abrupt (TypeError "Cannot read property 'name' of undefined"), s).
Proof.
  intros Hnone Hmap Hcache. unfold getThreadByName.
  rewrite (find_none _ _ Hnone). cbn [property_key].
  rewrite Hmap. cbn [property_key]. now rewrite Hcache.
Qed.

Lemma getThreadByName_no_match_throws_witness :
  getThreadByName "bob" (messer Sample.ready) =
    (Abrupt (TypeError "Cannot read property 'name' of undefined"),
     messer Sample.ready).
Proof.
  apply (getThreadByName_no_match_throws (messer Sample.ready) "bob");
    [repeat constructor | reflexivity | vm_compute; reflexivity].
Defined.

(** ** The cache holds projections only *)

Lemma projected_new : projected new_Messer.
Proof. intros id entry H. cbn in H. now rewrite lookup_empty in H. Qed.

Lemma projected_cacheThread (thread : Thread.t) (s : Messer) :
  projected s -> projected (cacheThread thread s).
Proof.
  intros Hs id entry. unfold cacheThread.
  destruct (threadCache s !! Thread.threadID thread) eqn:E; [apply Hs|].
  cbn [threadCache set_threadCache]. rewrite lookup_insert.
  case_decide; [|apply Hs]. intros [= <-]. reflexivity.
Qed.

Lemma projected_getThreadByName (name : string) (s : Messer) :
  projected s -> projected (snd (getThreadByName name s)).
Proof.
  intros Hs. unfold getThreadByName.
  destruct (threadCache s !! _) as [th|] eqn:E; [|exact Hs].
  destruct (Thread.name th) as [nm|]; [|exact Hs].
  destruct (String.length nm =? 0)%nat; [|exact Hs].
  intros id entry. cbn [snd threadCache set_threadCache]. rewrite lookup_insert.
  case_decide; [|apply Hs]. intros [= <-]. cbn. exact (Hs _ _ E).
Qed.

(** ** getThreadById *)

Lemma executor_hit (threadID : string) (w : World) (entry : Thread.t) :
  threadCache (messer w) !! threadID = Some entry ->
  getThreadById_executor threadID w = (Some (Normal entry), w).
Proof. intros H. unfold getThreadById_executor. now rewrite H. Qed.

Lemma executor_miss (threadID : string) (w : World) (a : Api) :
  api (messer w) = Some a ->
  threadCache (messer w) !! threadID = None ->
  getThreadById_executor threadID w =
    (None, with_trace w [Call (ReqThreadInfo threadID)]).
Proof. intros Ha H. unfold getThreadById_executor. now rewrite H, Ha. Qed.

Lemma callback_data (thread : Thread.t) (w : World) :
  getThreadById_callback (Data thread) w =
    (Normal thread,
     {| messer := cacheThread thread (messer w);
        trace := trace w ++ [CacheThread thread] |}).
Proof. reflexivity. Qed.

Lemma callback_failure (err : jsval) (w : World) :
  getThreadById_callback (Failure err) w = (Abrupt err, w).
Proof. reflexivity. Qed.

(** What a call does when nothing runs between request and callback. *)
Lemma getThreadById_run (threadID : string) (w : World) (a : Api) :
  api (messer w) = Some a ->
  getThreadById threadID w =
    match threadCache (messer w) !! threadID with
    | Some entry => (Normal entry, w)
    | None =>
        match getThreadInfo a threadID with
        | Data thread =>
            (Normal thread,
             {| messer := cacheThread thread (messer w);
                trace := trace w ++ [Call (ReqThreadInfo threadID); CacheThread thread] |})
        | Failure err =>
            (Abrupt err, with_trace w [Call (ReqThreadInfo threadID)])
        end
    end.
Proof.
  intros Ha. unfold getThreadById.
  destruct (threadCache (messer w) !! threadID) as [entry|] eqn:Hc.
  - now rewrite (executor_hit _ _ _ Hc).
  - rewrite (executor_miss _ _ _ Ha Hc). cbn [with_trace messer]. rewrite Ha.
    destruct (getThreadInfo a threadID) as [thread|err].
    + rewrite callback_data. cbn [with_trace messer trace]. now rewrite <- app_assoc.
    + now rewrite callback_failure.
Qed.

(** C6. In a session that holds a backend handle, getThreadById on an
    identifier found in the thread cache is fulfilled with the cached entry
    and leaves the session and the trace as they were: no backend call.  On
    an identifier that is not cached it issues one getThreadInfo request;
    when the backend answers with a record, the record goes through
    cacheThread and the promise is fulfilled with it; the promise is
    rejected exactly when the backend answers with an error. *)
Theorem getThreadById_cache_then_backend (threadID : string) (w : World) (a : Api) :
  api (messer w) = Some a ->
  getThreadById threadID w =
    match threadCache (messer w) !! threadID with
    | Some entry => (Normal entry, w)
    | None =>
        match getThreadInfo a threadID with
        | Data thread =>
            (Normal thread,
             {| messer := cacheThread thread (messer w);
                trace := trace w ++ [Call (ReqThreadInfo threadID); CacheThread thread] |})
        | Failure err =>
            (Abrupt err, with_trace w [Call (ReqThreadInfo threadID)])
        end
    end.
Proof.
  intros Ha. unfold getThreadById.
  destruct (threadCache (messer w) !! threadID) as [entry|] eqn:Hc.
  - now rewrite (executor_hit _ _ _ Hc).
  - rewrite (executor_miss _ _ _ Ha Hc). cbn [with_trace messer]. rewrite Ha.
    destruct (getThreadInfo a threadID) as [thread|err].
    + rewrite callback_data. cbn [with_trace messer trace]. now rewrite <- app_assoc.
    + now rewrite callback_failure.
Qed.

Lemma getThreadById_cache_then_backend_witness :
  getThreadById "1" Sample.ready
    = (Normal (Thread.mk (Some "") "1" []), Sample.ready) /\
  getThreadById "3" Sample.ready
    = (Normal Sample.group_thread,
       {| messer := cacheThread Sample.group_thread (messer Sample.ready);
          trace := trace Sample.ready
                     ++ [Call (ReqThreadInfo "3"); CacheThread Sample.group_thread] |}) /\
  getThreadById "4" Sample.ready
    = (Abrupt (BackendError "no such thread"),
       with_trace Sample.ready [Call (ReqThreadInfo "4")]).
Proof.
  pose proof (getThreadById_cache_then_backend "1" Sample.ready Sample.fbApi eq_refl) as H1.
  pose proof (getThreadById_cache_then_backend "3" Sample.ready Sample.fbApi eq_refl) as H3.
  pose proof (getThreadById_cache_then_backend "4" Sample.ready Sample.fbApi eq_refl) as H4.
  split; [exact H1 | split; [exact H3 | exact H4]].
Defined.

(** C10. On a miss getThreadById is fulfilled with the whole record of the
    backend, while the cache keeps the projection of it to name and
    threadID that cacheThread builds; a later call for the identifier is a
    hit, fulfilled with that projection, and the two values are equal only
    when the record has no property besides name and threadID. *)
Theorem getThreadById_miss_full_hit_projection
    (threadID : string) (w : World) (a : Api) (thread : Thread.t) :
  api (messer w) = Some a ->
  threadCache (messer w) !! threadID = None ->
  getThreadInfo a threadID = Data thread ->
  Thread.threadID thread = threadID ->
  let w1 := snd (getThreadById threadID w) in
  fst (getThreadById threadID w) = Normal thread /\
  threadCache (messer w1) !! threadID = Some (projection thread) /\
  getThreadById threadID w1 = (Normal (projection thread), w1) /\
  (projection thread = thread <-> Thread.others thread = []) /\
  (forall w2 entry,
      projected (messer w2) ->
      threadCache (messer w2) !! threadID = Some entry ->
      getThreadById threadID w2 = (Normal entry, w2) /\ Thread.others entry = []).
Proof.
  intros Ha Hc Hd Hid w1. subst w1 threadID.
  rewrite (getThreadById_run _ _ _ Ha), Hc, Hd. cbn [fst snd].
  assert (Hl : threadCache (cacheThread thread (messer w)) !! Thread.threadID thread
               = Some (projection thread)).
  { now rewrite cacheThread_lookup, Hc. }
  split; [reflexivity|]. split; [exact Hl|]. split.
  - unfold getThreadById.
    erewrite executor_hit; [reflexivity | exact Hl].
  - split.
    + destruct thread as [n i o]. unfold projection. cbn. split.
      * intros H. now injection H.
      * now intros ->.
    + intros w2 entry Hinv Hentry. split; [|exact (Hinv _ _ Hentry)].
      unfold getThreadById. now rewrite (executor_hit _ _ _ Hentry).
Qed.

Lemma getThreadById_miss_full_hit_projection_witness :
  fst (getThreadById "3" Sample.ready) = Normal Sample.group_thread /\
  fst (getThreadById "3" (snd (getThreadById "3" Sample.ready)))
    = Normal (Thread.mk (Some "Climbing") "3" []) /\
  Thread.mk (Some "Climbing") "3" [] <> Sample.group_thread.
Proof.
  destruct (getThreadById_miss_full_hit_projection "3" Sample.ready Sample.fbApi
              Sample.group_thread eq_refl eq_refl eq_refl eq_refl)
    as (Hfirst & _ & Hlater & Hsame & _).
  split; [exact Hfirst|]. split.
  - exact (f_equal fst Hlater).
  - intros Heq. apply Hsame in Heq. discriminate Heq.
Defined.

(** ** Calls of getThreadById in flight *)

Lemma fetches_with_trace (threadID : string) (w : World) (p : list (nat * string))
    (d : list (nat * completion Thread.t)) :
  Loop.fetches threadID (Loop.mk (with_trace w [Call (ReqThreadInfo threadID)]) p d)
  = S (Loop.fetches threadID (Loop.mk w p d)).
Proof.
  unfold Loop.fetches. cbn [Loop.world with_trace trace].
  rewrite List.filter_app, length_app. cbn. rewrite String.eqb_refl. cbn. lia.
Qed.

Lemma invoke_miss (st : Loop.t) (a : Api) (caller : nat) (threadID : string) :
  api (messer (Loop.world st)) = Some a ->
  threadCache (messer (Loop.world st)) !! threadID = None ->
  Loop.step st (Loop.Invoke caller threadID) =
    Loop.mk (with_trace (Loop.world st) [Call (ReqThreadInfo threadID)])
            (Loop.pending st ++ [(caller, threadID)]) (Loop.settled st).
Proof.
  intros Ha Hc. cbn [Loop.step]. now rewrite (executor_miss _ _ _ Ha Hc).
Qed.

(** Arithmetic on request counts, with the counts taken as unknowns. *)
Ltac count_arith :=
  unfold Loop.fetches; cbn [Loop.world];
  repeat match goal with
         | |- context [length (List.filter ?f ?l)] =>
             generalize (length (List.filter f l)); intro
         end;
  cbn [length]; lia.

Lemma invoke_all_miss (callers : list nat) (st : Loop.t) (a : Api) (threadID : string) :
  api (messer (Loop.world st)) = Some a ->
  threadCache (messer (Loop.world st)) !! threadID = None ->
  let st' := Loop.run st (map (fun c => Loop.Invoke c threadID) callers) in
  Loop.fetches threadID st' = Loop.fetches threadID st + length callers /\
  Loop.pending st' = Loop.pending st ++ map (fun c => (c, threadID)) callers /\
  Loop.settled st' = Loop.settled st /\
  messer (Loop.world st') = messer (Loop.world st).
Proof.
  revert st. induction callers as [|c callers IH]; intros [w p d] Ha Hc; cbn zeta.
  - cbn. rewrite app_nil_r. split; [count_arith|]. now repeat split.
  - cbn [map Loop.run foldl]. rewrite (invoke_miss _ _ _ _ Ha Hc).
    cbn [Loop.world Loop.pending Loop.settled] in *.
    destruct (IH (Loop.mk (with_trace w [Call (ReqThreadInfo threadID)])
                          (p ++ [(c, threadID)]) d) Ha Hc) as (Hf & Hp & Hs & Hm).
    unfold Loop.run in Hf, Hp, Hs, Hm.
    rewrite Hf, Hp, Hs, Hm, fetches_with_trace.
    cbn [Loop.world Loop.pending Loop.settled with_trace messer length].
    rewrite <- app_assoc. split; [count_arith|]. now repeat split.
Qed.

(** C7, as stated, fails: two calls for the identifier "3" made before any
    answer issue two requests, so one request at most is not a bound. *)
Lemma getThreadById_duplicate_fetches :
  let st := Loop.mk Sample.ready [] [] in
  let st' := Loop.run st [Loop.Invoke 7 "3"; Loop.Invoke 8 "3"] in
  Loop.fetches "3" st = 0 /\
  Loop.settled st' = [] /\
  Loop.fetches "3" st' = 2 /\
  ~ (forall (st : Loop.t) (threadID : string) (callers : list nat),
        Loop.fetches threadID
          (Loop.run st (map (fun c => Loop.Invoke c threadID) callers))
        <= Loop.fetches threadID st + 1).
Proof.
  cbn zeta. split; [reflexivity|]. split; [reflexivity|]. split; [reflexivity|].
  intros H. specialize (H (Loop.mk Sample.ready [] []) "3" [7; 8]).
  vm_compute in H. lia.
Qed.

(** ** fetchCurrentUser *)

Lemma forEach_storeFriend (friends : list Friend.t) (w : World) :
  forEach friends storeFriend w =
    (Normal tt,
     {| messer := storeFriends friends (messer w);
        trace := trace w ++ flat_map friend_events friends |}).
Proof.
  revert w. induction friends as [|u friends IH]; intros [s tr].
  - cbn. now rewrite app_nil_r.
  - cbn [forEach]. unfold bind at 1.
    unfold storeFriend at 1, bind, emit, update. cbn [messer trace].
    rewrite IH. cbn [messer trace storeFriends foldl flat_map friend_events].
    now rewrite <- !app_assoc.
Qed.

Lemma forEach_cacheThreadM (threads : list Thread.t) (w : World) :
  forEach threads cacheThreadM w =
    (Normal tt,
     {| messer := registerThreads threads (messer w);
        trace := trace w ++ map CacheThread threads |}).
Proof.
  revert w. induction threads as [|th threads IH]; intros [s tr].
  - cbn. now rewrite app_nil_r.
  - cbn [forEach]. unfold bind at 1.
    unfold cacheThreadM at 1, bind, emit, update. cbn [messer trace].
    rewrite IH. cbn [messer trace registerThreads foldl map].
    now rewrite <- !app_assoc.
Qed.

(** What a run of the bulk fetch does, by the answers of the backend. *)
Lemma fetchCurrentUser_run (w : World) (a : Api) :
  api (messer w) = Some a ->
  fetchCurrentUser w =
    match getCurrentUserID a with
    | Failure err => (Abrupt err, with_trace w [Call ReqCurrentUserID])
    | Data userID =>
        match getUserInfo a userID with
        | Failure err =>
            (Abrupt err, with_trace w [Call ReqCurrentUserID; Call (ReqUserInfo userID)])
        | Data data =>
            match getFriendsList a with
            | Failure err =>
                (Abrupt err,
                 with_trace w [Call ReqCurrentUserID; Call (ReqUserInfo userID);
                               Call ReqFriendsList])
            | Data friends =>
                (Normal (fetched_user userID data),
                 {| messer := registerThreads (first_page a)
                                (storeFriends friends (messer w));
                    trace := trace w
                      ++ [Call ReqCurrentUserID; Call (ReqUserInfo userID);
                          Call ReqFriendsList]
                      ++ flat_map friend_events friends
                      ++ Call (ReqThreadList 0 20) :: map CacheThread (first_page a) |})
            end
        end
    end.
Proof.
  intros Ha. destruct w as [s tr]. cbn [messer] in Ha.
  unfold fetchCurrentUser, bind at 1, this. cbn [messer]. rewrite Ha.
  unfold bind at 1, emit at 1. cbn [messer trace]. unfold bind at 1.
  destruct (getCurrentUserID a) as [userID|err]; cbn [answer ret fail]; [|reflexivity].
  unfold bind at 1, emit at 1. cbn [messer trace]. unfold bind at 1.
  destruct (getUserInfo a userID) as [data|err]; cbn [answer ret fail];
    [|now rewrite <- app_assoc].
  unfold bind at 1, emit at 1. cbn [messer trace]. unfold bind at 1.
  destruct (getFriendsList a) as [friends|err]; cbn [answer ret fail];
    [|now rewrite <- !app_assoc].
  unfold bind at 1. rewrite forEach_storeFriend. cbn [messer trace].
  unfold bind at 1, emit at 1. cbn [messer trace]. unfold bind at 1, first_page.
  destruct (getThreadList a 0 20) as [threads|err].
  - rewrite forEach_cacheThreadM. cbn [messer trace ret].
    unfold fetched_user. now rewrite <- !app_assoc.
  - cbn [ret registerThreads foldl map]. unfold fetched_user.
    now rewrite <- !app_assoc.
Qed.

Lemma storeFriends_snoc (friends : list Friend.t) (u : Friend.t) (s : Messer) :
  storeFriends (friends ++ [u]) s =
    set_userCache (<[Friend.userID u := u]> (userCache (storeFriends friends s)))
      (set_threadMap
         (Obj.set (threadMap (storeFriends friends s)) (Friend.display u) (Friend.userID u))
         (storeFriends friends s)).
Proof. unfold storeFriends. now rewrite foldl_snoc. Qed.

Lemma storeFriends_threadCache (friends : list Friend.t) (s : Messer) :
  threadCache (storeFriends friends s) = threadCache s.
Proof.
  induction friends as [|u friends IH] using rev_ind; [reflexivity|].
  now rewrite storeFriends_snoc.
Qed.

(** After the loop over the friends list every friend has its key in the
    name index and its identifier in the user cache. *)
Lemma storeFriends_all (friends : list Friend.t) (s : Messer) (u : Friend.t) :
  In u friends ->
  is_Some (Obj.get (threadMap (storeFriends friends s)) (Friend.display u)) /\
  is_Some (userCache (storeFriends friends s) !! Friend.userID u).
Proof.
  induction friends as [|v friends IH] using rev_ind; [intros []|].
  intros Hin. rewrite storeFriends_snoc. cbn [threadMap userCache set_userCache set_threadMap].
  apply in_app_or in Hin. destruct Hin as [Hin|[->|[]]].
  - destruct (IH Hin) as [Hm Hu]. split.
    + now apply get_set_is_Some.
    + destruct (decide (Friend.userID v = Friend.userID u)) as [->|Hne].
      * rewrite lookup_insert_eq. eauto.
      * now rewrite lookup_insert_ne.
  - split.
    + rewrite get_set_eq. eauto.
    + rewrite lookup_insert_eq. eauto.
Qed.

Lemma filter_CacheThread_calls (tr : list event) (rs : list request) (friends : list Friend.t) :
  List.filter is_CacheThread (tr ++ map Call rs ++ flat_map friend_events friends)
  = List.filter is_CacheThread tr.
Proof.
  rewrite !List.filter_app.
  assert (H1 : List.filter is_CacheThread (map Call rs) = []).
  { induction rs as [|r rs IH]; [reflexivity|exact IH]. }
  assert (H2 : List.filter is_CacheThread (flat_map friend_events friends) = []).
  { induction friends as [|u friends IH]; [reflexivity|exact IH]. }
  now rewrite H1, H2, !app_nil_r.
Qed.

(** C1. The bulk fetch runs its steps in order.  In a run that reaches the
    friends list, when the list is retrieved there is a point [mid] of the
    run at which every retrieved friend has its key in the name index and
    its identifier in the user cache, while the thread cache is still the
    one of the start and no cacheThread call has been made; the rest of the
    run is the request for the thread page followed by the cacheThread
    calls.  When the friends list fails the promise is rejected with that
    error, the thread cache is untouched and no cacheThread call is made. *)
Theorem fetchCurrentUser_contacts_before_threads
    (w : World) (a : Api) (userID : string) (data : gmap string User) :
  api (messer w) = Some a ->
  getCurrentUserID a = Data userID ->
  getUserInfo a userID = Data data ->
  match getFriendsList a with
  | Failure err =>
      fst (fetchCurrentUser w) = Abrupt err /\
      threadCache (messer (snd (fetchCurrentUser w))) = threadCache (messer w) /\
      List.filter is_CacheThread (trace (snd (fetchCurrentUser w)))
      = List.filter is_CacheThread (trace w)
  | Data friends =>
      let mid :=
        {| messer := storeFriends friends (messer w);
           trace := trace w
             ++ map Call [ReqCurrentUserID; ReqUserInfo userID; ReqFriendsList]
             ++ flat_map friend_events friends |} in
      (forall u, In u friends ->
         is_Some (Obj.get (threadMap (messer mid)) (Friend.display u)) /\
         is_Some (userCache (messer mid) !! Friend.userID u)) /\
      threadCache (messer mid) = threadCache (messer w) /\
      List.filter is_CacheThread (trace mid) = List.filter is_CacheThread (trace w) /\
      snd (fetchCurrentUser w) =
        {| messer := registerThreads (first_page a) (messer mid);
           trace := trace mid
             ++ Call (ReqThreadList 0 20) :: map CacheThread (first_page a) |}
  end.
Proof.
  intros Ha Hid Hinfo. rewrite (fetchCurrentUser_run _ _ Ha), Hid, Hinfo.
  destruct (getFriendsList a) as [friends|err].
  - cbn zeta. cbn [fst snd messer trace]. split; [|split; [|split]].
    + intros u Hu. now apply storeFriends_all.
    + apply storeFriends_threadCache.
    + apply filter_CacheThread_calls.
    + cbn [map]. now rewrite <- !app_assoc.
  - cbn [fst snd with_trace messer trace]. split; [reflexivity|]. split; [reflexivity|].
    apply (filter_CacheThread_calls (trace w)
             [ReqCurrentUserID; ReqUserInfo userID; ReqFriendsList] []).
Qed.

Lemma fetchCurrentUser_contacts_before_threads_witness :
  trace Sample.ready =
    [Call ReqCurrentUserID; Call (ReqUserInfo "100"); Call ReqFriendsList;
     SetThreadMap "Alice" "1"; SetUserCache "1";
     SetThreadMap "alina" "2"; SetUserCache "2";
     Call (ReqThreadList 0 20);
     CacheThread Sample.alice_thread; CacheThread Sample.alina_thread] /\
  fst (fetchCurrentUser (Sample.logged_in Sample.fbApi_no_friends))
    = Abrupt (BackendError "friends list unavailable") /\
  threadCache (messer (snd (fetchCurrentUser (Sample.logged_in Sample.fbApi_no_friends))))
    = ∅.
Proof.
  pose proof (fetchCurrentUser_contacts_before_threads
                (Sample.logged_in Sample.fbApi) Sample.fbApi "100"
                {[ "100" := {[ "name" := "Me" ]} ]} eq_refl eq_refl eq_refl) as Hok.
  pose proof (fetchCurrentUser_contacts_before_threads
                (Sample.logged_in Sample.fbApi_no_friends) Sample.fbApi_no_friends "100"
                {[ "100" := {[ "name" := "Me" ]} ]} eq_refl eq_refl eq_refl) as Hfail.
  cbn [Sample.fbApi Sample.fbApi_no_friends getFriendsList] in Hok, Hfail.
  destruct Hok as (_ & _ & _ & Hrun). destruct Hfail as (Hrej & Hcache & _).
  split; [exact (f_equal trace Hrun)|]. split; [exact Hrej | exact Hcache].
Defined.

(** C2. A failure of the identity, of the profile or of the friends list
    rejects the promise of the bulk fetch with that error, and the session
    is then as it was at the start: nothing had been written.  A failure of
    the thread page is ignored: the promise is fulfilled with the user, the
    entries written for the friends stay, and no thread is registered. *)
Theorem fetchCurrentUser_failures (w : World) (a : Api) :
  api (messer w) = Some a ->
  match getCurrentUserID a with
  | Failure err =>
      fst (fetchCurrentUser w) = Abrupt err /\
      messer (snd (fetchCurrentUser w)) = messer w
  | Data userID =>
      match getUserInfo a userID with
      | Failure err =>
          fst (fetchCurrentUser w) = Abrupt err /\
          messer (snd (fetchCurrentUser w)) = messer w
      | Data data =>
          match getFriendsList a with
          | Failure err =>
              fst (fetchCurrentUser w) = Abrupt err /\
              messer (snd (fetchCurrentUser w)) = messer w
          | Data friends =>
              match getThreadList a 0 20 with
              | Failure _ =>
                  fst (fetchCurrentUser w) = Normal (fetched_user userID data) /\
                  messer (snd (fetchCurrentUser w)) = storeFriends friends (messer w)
              | Data threads =>
                  fst (fetchCurrentUser w) = Normal (fetched_user userID data) /\
                  messer (snd (fetchCurrentUser w))
                  = registerThreads threads (storeFriends friends (messer w))
              end
          end
      end
  end.
Proof.
  intros Ha. rewrite (fetchCurrentUser_run _ _ Ha). unfold first_page.
  destruct (getCurrentUserID a) as [userID|err]; [|now split].
  destruct (getUserInfo a userID) as [data|err]; [|now split].
  destruct (getFriendsList a) as [friends|err]; [|now split].
  destruct (getThreadList a 0 20) as [threads|err]; now split.
Qed.

Lemma fetchCurrentUser_failures_witness :
  fst (fetchCurrentUser (Sample.logged_in Sample.fbApi_no_friends))
    = Abrupt (BackendError "friends list unavailable") /\
  messer (snd (fetchCurrentUser (Sample.logged_in Sample.fbApi_no_friends)))
    = messer (Sample.logged_in Sample.fbApi_no_friends) /\
  fst (fetchCurrentUser (Sample.logged_in Sample.fbApi_no_threads)) = Normal Sample.me /\
  messer Sample.ready_no_threads
    = storeFriends [Sample.alice; Sample.alina]
        (messer (Sample.logged_in Sample.fbApi_no_threads)).
Proof.
  pose proof (fetchCurrentUser_failures
                (Sample.logged_in Sample.fbApi_no_friends) Sample.fbApi_no_friends
                eq_refl) as Hfriends.
  pose proof (fetchCurrentUser_failures
                (Sample.logged_in Sample.fbApi_no_threads) Sample.fbApi_no_threads
                eq_refl) as Hthreads.
  cbn [Sample.fbApi Sample.fbApi_no_friends Sample.fbApi_no_threads
       getCurrentUserID getUserInfo getFriendsList getThreadList] in Hfriends, Hthreads.
  destruct Hfriends as [H1 H2]. destruct Hthreads as [H3 H4].
  split; [exact H1|]. split; [exact H2|]. split; [exact H3 | exact H4].
Defined.

(** C2, as stated, fails for the thread page: with a backend whose thread
    list fails while the other steps succeed, the promise of the bulk
    fetch is fulfilled. *)
Lemma fetchCurrentUser_ignores_thread_page_failure :
  getThreadList Sample.fbApi_no_threads 0 20
    = Failure (BackendError "thread list unavailable") /\
  fst (fetchCurrentUser (Sample.logged_in Sample.fbApi_no_threads)) = Normal Sample.me /\
  ~ (forall (w : World) (a : Api) (err : jsval),
        api (messer w) = Some a ->
        getThreadList a 0 20 = Failure err ->
        exists r, fst (fetchCurrentUser w) = Abrupt r).
Proof.
  split; [reflexivity|]. split; [vm_compute; reflexivity|].
  intros H.
  destruct (H (Sample.logged_in Sample.fbApi_no_threads) Sample.fbApi_no_threads
              (BackendError "thread list unavailable") eq_refl eq_refl) as [r Hr].
  vm_compute in Hr. discriminate Hr.
Qed.

(** ** processCommand *)

(** The name looked up is never the one of an empty token list. *)
Lemma command_name_head (rawCommand : string) :
  exists rest,
    JsString.split " " (JsString.remove_first "010" rawCommand)
    = command_name rawCommand :: rest.
Proof.
  unfold command_name.
  destruct (JsString.split " " (JsString.remove_first "010" rawCommand)) as [|x l] eqn:E.
  - now apply split_nonempty in E.
  - now exists l.
Qed.

(** ** authenticate *)

Lemma authenticate_run (facebook : Credentials -> response Api)
    (credentials : Credentials) (w : World) :
  authenticate facebook credentials w =
    match facebook credentials with
    | Failure err =>
        (Abrupt (Str ("Failed to login as [" +:+ property_key (email credentials)
                      +:+ "] - " +:+ to_String err)),
         with_trace w [Logged (Str "Logging in..."); Login])
    | Data fbApi =>
        match fetchCurrentUser
                {| messer := set_api fbApi (messer w);
                   trace := trace w ++ [Logged (Str "Logging in..."); Login;
                                        SavedAppState (getAppState fbApi);
                                        Logged (Str "Fetching your details...")] |} with
        | (Normal user, w') =>
            (Normal tt, {| messer := set_user user (messer w'); trace := trace w' |})
        | (Abrupt r, w') => (Abrupt r, w')
        end
    end.
Proof.
  unfold authenticate, log. unfold bind at 1, emit at 1. unfold bind at 1, emit at 1.
  cbn [messer trace].
  destruct (facebook credentials) as [fbApi|err].
  - unfold bind at 1, emit at 1. unfold bind at 1, update at 1.
    unfold bind at 1, emit at 1. cbn [messer trace]. unfold bind at 1.
    rewrite <- !app_assoc. cbn [app].
    destruct (fetchCurrentUser _) as [[u|r] w']; reflexivity.
  - unfold fail, with_trace. now rewrite <- app_assoc.
Qed.

(** C9. The value that authenticate rejects with is made of the email and
    of the error of the backend alone.  Two credentials with the same
    email to which the backend gives the same answer, whatever their
    passwords, lead to the same outcome and the same session; and when the
    login is refused with [err] the promise is rejected with the text
    "Failed to login as [<email>] - <err>". *)
Theorem authenticate_error_without_secret
    (facebook : Credentials -> response Api) (c c' : Credentials) (w : World) :
  email c' = email c ->
  facebook c' = facebook c ->
  authenticate facebook c' w = authenticate facebook c w /\
  forall err,
    facebook c = Failure err ->
    fst (authenticate facebook c w) =
      Abrupt (Str ("Failed to login as [" +:+ property_key (email c)
                   +:+ "] - " +:+ to_String err)).
Proof.
  intros Hemail Hlogin. rewrite !authenticate_run, Hlogin, Hemail.
  split; [reflexivity|]. intros err Herr. now rewrite Herr.
Qed.

Lemma authenticate_error_without_secret_witness :
  authenticate Sample.refuse (Sample.credentials "hunter2") (Sample.logged_in Sample.fbApi)
  = authenticate Sample.refuse (Sample.credentials "letmein") (Sample.logged_in Sample.fbApi) /\
  fst (authenticate Sample.refuse (Sample.credentials "letmein")
         (Sample.logged_in Sample.fbApi))
  = Abrupt (Str "Failed to login as [me@example.org] - Wrong username/password.").
Proof.
  destruct (authenticate_error_without_secret Sample.refuse
              (Sample.credentials "letmein") (Sample.credentials "hunter2")
              (Sample.logged_in Sample.fbApi) eq_refl eq_refl) as [Hsame Htext].
  split; [exact Hsame|].
  exact (Htext (BackendError "Wrong username/password.") eq_refl).
Defined.

(** ** Further facts and examples *)

Lemma projected_registerThreads (threads : list Thread.t) (s : Messer) :
  projected s -> projected (registerThreads threads s).
Proof.
  revert s. induction threads as [|th threads IH]; intros s Hs; [exact Hs|].
  apply IH. now apply projected_cacheThread.
Qed.

Lemma projected_storeFriends (friends : list Friend.t) (s : Messer) :
  projected s -> projected (storeFriends friends s).
Proof.
  intros Hs id entry. rewrite storeFriends_threadCache. apply Hs.
Qed.

(** The bulk fetch and getThreadById keep the cache made of projections. *)
Lemma projected_fetchCurrentUser (w : World) :
  projected (messer w) -> projected (messer (snd (fetchCurrentUser w))).
Proof.
  intros Hw. destruct (api (messer w)) as [a|] eqn:Ha.
  - rewrite (fetchCurrentUser_run _ _ Ha).
    destruct (getCurrentUserID a) as [userID|]; [|exact Hw].
    destruct (getUserInfo a userID) as [data|]; [|exact Hw].
    destruct (getFriendsList a) as [friends|]; [|exact Hw].
    cbn [snd messer].
    now apply projected_registerThreads, projected_storeFriends.
  - unfold fetchCurrentUser, bind, this. cbn [messer]. now rewrite Ha.
Qed.

Lemma projected_getThreadById (threadID : string) (w : World) :
  projected (messer w) -> projected (messer (snd (getThreadById threadID w))).
Proof.
  intros Hw. destruct (api (messer w)) as [a|] eqn:Ha.
  - rewrite (getThreadById_run _ _ _ Ha).
    destruct (threadCache (messer w) !! threadID); [exact Hw|].
    destruct (getThreadInfo a threadID); [|exact Hw].
    cbn [snd messer]. now apply projected_cacheThread.
  - unfold getThreadById, getThreadById_executor.
    destruct (threadCache (messer w) !! threadID); [exact Hw|].
    now rewrite Ha.
Qed.

Lemma get_not_named {V} (o : Obj.t V) (k : string) :
  ~ In k (Obj.names o) -> Obj.get o k = None.
Proof.
  induction o as [|[k' v] o IH]; cbn; [reflexivity|]. intros Hn.
  destruct (String.eqb k k') eqn:E.
  - apply String.eqb_eq in E. subst. tauto.
  - apply IH. tauto.
Qed.

(** The keys that the bulk fetch creates in an empty name index are the
    names of the friends in the order of the friends list, when the names
    are distinct. *)
Lemma storeFriends_names (friends : list Friend.t) (s : Messer) :
  threadMap s = [] ->
  List.NoDup (map Friend.display friends) ->
  Obj.names (threadMap (storeFriends friends s)) = map Friend.display friends.
Proof.
  intros Hs. induction friends as [|u friends IH] using rev_ind; intros Hnd.
  - cbn. now rewrite Hs.
  - rewrite map_app in Hnd |- *. cbn [map] in Hnd |- *.
    rewrite storeFriends_snoc. cbn [threadMap set_userCache set_threadMap].
    apply List.NoDup_remove in Hnd. rewrite app_nil_r in Hnd. destruct Hnd as [Hnd Hnew].
    rewrite names_set, get_not_named; rewrite (IH Hnd); [reflexivity|exact Hnew].
Qed.

(** With distinct names none of which is an array index, [Object.keys]
    enumerates the name index in the order of the friends list. *)
Lemma storeFriends_keys (friends : list Friend.t) (s : Messer) :
  threadMap s = [] ->
  List.NoDup (map Friend.display friends) ->
  Forall (fun k => Obj.is_index k = false) (map Friend.display friends) ->
  Obj.keys (threadMap (storeFriends friends s)) = map Friend.display friends.
Proof.
  intros Hs Hnd Hidx.
  rewrite keys_creation_order; rewrite (storeFriends_names _ _ Hs Hnd); auto.
Qed.

(** Array indices come first whatever the order of creation. *)
Example keys_array_index_first :
  Obj.keys (Obj.set (Obj.set (Obj.set [] "Bob" "7") "10" "8") "9" "9")
  = ["9"; "10"; "Bob"].
Proof. reflexivity. Qed.

Example processCommand_blank :
  processCommand Sample.registry (String "032" (String "010" "")) Sample.ready
  = (Normal tt, Sample.ready).
Proof. vm_compute. reflexivity. Qed.

Example processCommand_unknown :
  snd (processCommand Sample.registry "/nonexistent" Sample.ready)
  = with_trace Sample.ready [Logged (Str "Invalid command - check your syntax")].
Proof. vm_compute. reflexivity. Qed.

Example processCommand_fulfilled :
  snd (processCommand Sample.registry "message bob hi" Sample.ready)
  = with_trace Sample.ready
      [HandlerCalled "message bob hi"; Logged (Str "sent: message bob hi"); ReplCallback].
Proof. vm_compute. reflexivity. Qed.

Example processCommand_rejected :
  snd (processCommand Sample.registry "reply ok" Sample.ready)
  = with_trace Sample.ready
      [HandlerCalled "reply ok"; Logged (Str "no such friend"); ReplCallback].
Proof. vm_compute. reflexivity. Qed.

(** A handler name after a leading space is not found: the name looked up
    is the empty text before that space. *)
Example processCommand_leading_space :
  command_name " message bob" = "" /\
  snd (processCommand Sample.registry " message bob" Sample.ready)
  = with_trace Sample.ready [Logged (Str "Invalid command - check your syntax")].
Proof. split; [reflexivity | vm_compute; reflexivity]. Qed.

(** * Further properties of the session *)

(** ** What the bulk fetch leaves in the caches *)

Lemma cacheThread_frame (thread : Thread.t) (s : Messer) :
  api (cacheThread thread s) = api s /\
  user (cacheThread thread s) = user s /\
  userCache (cacheThread thread s) = userCache s /\
  threadMap (cacheThread thread s) = threadMap s.
Proof. unfold cacheThread. destruct (threadCache s !! _); now repeat split. Qed.

Lemma registerThreads_frame (threads : list Thread.t) (s : Messer) :
  api (registerThreads threads s) = api s /\
  user (registerThreads threads s) = user s /\
  userCache (registerThreads threads s) = userCache s /\
  threadMap (registerThreads threads s) = threadMap s.
Proof.
  revert s. induction threads as [|th threads IH]; intros s; [now repeat split|].
  cbn [registerThreads foldl]. fold (registerThreads threads (cacheThread th s)).
  destruct (IH (cacheThread th s)) as (H1 & H2 & H3 & H4).
  destruct (cacheThread_frame th s) as (G1 & G2 & G3 & G4).
  rewrite H1, H2, H3, H4. now repeat split.
Qed.

Lemma storeFriends_api (friends : list Friend.t) (s : Messer) :
  api (storeFriends friends s) = api s /\ user (storeFriends friends s) = user s.
Proof.
  induction friends as [|u friends IH] using rev_ind; [now split|].
  now rewrite storeFriends_snoc.
Qed.

Lemma extends_refl (s : Messer) : extends s s.
Proof. now intros id entry H. Qed.

Lemma extends_trans (s1 s2 s3 : Messer) :
  extends s1 s2 -> extends s2 s3 -> extends s1 s3.
Proof. intros H12 H23 id entry H. now apply H23, H12. Qed.

Lemma extends_cacheThread (thread : Thread.t) (s : Messer) :
  extends s (cacheThread thread s).
Proof.
  intros id entry H. unfold cacheThread.
  destruct (threadCache s !! Thread.threadID thread) eqn:E; [exact H|].
  cbn [threadCache set_threadCache]. rewrite lookup_insert_ne; [exact H|].
  intros Heq. rewrite Heq in E. congruence.
Qed.

Lemma extends_registerThreads (threads : list Thread.t) (s : Messer) :
  extends s (registerThreads threads s).
Proof.
  revert s. induction threads as [|th threads IH]; intros s; [apply extends_refl|].
  eapply extends_trans; [apply (extends_cacheThread th)|apply IH].
Qed.

Lemma dom_cacheThread (thread : Thread.t) (s : Messer) :
  dom (threadCache (cacheThread thread s))
  = dom (threadCache s) ∪ {[ Thread.threadID thread ]}.
Proof.
  unfold cacheThread.
  destruct (threadCache s !! Thread.threadID thread) eqn:E.
  - assert (Thread.threadID thread ∈ dom (threadCache s))
      by (apply elem_of_dom; eauto).
    set_solver.
  - cbn [threadCache set_threadCache]. rewrite dom_insert_L. set_solver.
Qed.

Lemma dom_registerThreads (threads : list Thread.t) (s : Messer) :
  dom (threadCache (registerThreads threads s))
  = dom (threadCache s) ∪ list_to_set (map Thread.threadID threads).
Proof.
  revert s. induction threads as [|th threads IH]; intros s.
  - cbn. set_solver.
  - cbn [registerThreads foldl map list_to_set].
    fold (registerThreads threads (cacheThread th s)).
    rewrite IH, dom_cacheThread. set_solver.
Qed.

Lemma registerThreads_app (l1 l2 : list Thread.t) (s : Messer) :
  registerThreads (l1 ++ l2) s = registerThreads l2 (registerThreads l1 s).
Proof. unfold registerThreads. apply foldl_app. Qed.

Lemma registerThreads_other (threads : list Thread.t) (s : Messer) (id : string) :
  Forall (fun th => Thread.threadID th <> id) threads ->
  threadCache (registerThreads threads s) !! id = threadCache s !! id.
Proof.
  intros H. revert s. induction H as [|th threads Hth _ IH]; intros s; [reflexivity|].
  cbn [registerThreads foldl]. fold (registerThreads threads (cacheThread th s)).
  rewrite IH. unfold cacheThread.
  destruct (threadCache s !! Thread.threadID th); [reflexivity|].
  cbn [threadCache set_threadCache]. now rewrite lookup_insert_ne.
Qed.

(** Among the threads of a page that share a new identifier, the first
    one is the one cached. *)
Lemma registerThreads_first (before after : list Thread.t) (th : Thread.t) (s : Messer) :
  Forall (fun x => Thread.threadID x <> Thread.threadID th) before ->
  threadCache s !! Thread.threadID th = None ->
  threadCache (registerThreads (before ++ th :: after) s) !! Thread.threadID th
  = Some (projection th).
Proof.
  intros Hb Hnone.
  rewrite registerThreads_app.
  change (th :: after) with ([th] ++ after). rewrite registerThreads_app.
  apply extends_registerThreads. cbn [registerThreads foldl].
  now rewrite cacheThread_lookup, registerThreads_other, Hnone.
Qed.

(** X1. After a bulk fetch that retrieved the friends list, the thread
    cache holds the identifiers it had plus those of the thread page and no
    other; the entries it had are unchanged; and for an identifier that was
    not cached, the entry is the projection of the first thread of the page
    that carries it. *)
Theorem fetchCurrentUser_thread_cache
    (w : World) (a : Api) (userID : string) (data : gmap string User)
    (friends : list Friend.t) :
  api (messer w) = Some a ->
  getCurrentUserID a = Data userID ->
  getUserInfo a userID = Data data ->
  getFriendsList a = Data friends ->
  let s' := messer (snd (fetchCurrentUser w)) in
  dom (threadCache s')
  = dom (threadCache (messer w)) ∪ list_to_set (map Thread.threadID (first_page a)) /\
  extends (messer w) s' /\
  forall before th after,
    first_page a = before ++ th :: after ->
    Forall (fun x => Thread.threadID x <> Thread.threadID th) before ->
    threadCache (messer w) !! Thread.threadID th = None ->
    threadCache s' !! Thread.threadID th = Some (projection th).
Proof.
  intros Ha Hid Hinfo Hfriends s'. subst s'.
  rewrite (fetchCurrentUser_run _ _ Ha), Hid, Hinfo, Hfriends. cbn [snd messer].
  split; [|split].
  - now rewrite dom_registerThreads, storeFriends_threadCache.
  - intros id entry H. apply extends_registerThreads.
    now rewrite storeFriends_threadCache.
  - intros before th after Hpage Hb Hnone. rewrite Hpage.
    apply registerThreads_first; [exact Hb|].
    now rewrite storeFriends_threadCache.
Qed.

Lemma fetchCurrentUser_thread_cache_witness :
  dom (threadCache (messer Sample.ready)) = {[ "1"; "2" ]} /\
  threadCache (messer Sample.ready) !! "1" = Some (Thread.mk (Some "") "1" []).
Proof.
  destruct (fetchCurrentUser_thread_cache (Sample.logged_in Sample.fbApi) Sample.fbApi
              "100" {[ "100" := {[ "name" := "Me" ]} ]} [Sample.alice; Sample.alina]
              eq_refl eq_refl eq_refl eq_refl) as (Hdom & _ & Hfirst).
  split.
  - etransitivity; [exact Hdom|]. vm_compute. reflexivity.
  - exact (Hfirst [] Sample.alice_thread [Sample.alina_thread] eq_refl
             (List.Forall_nil _) eq_refl).
Defined.

Lemma storeFriends_app (l1 l2 : list Friend.t) (s : Messer) :
  storeFriends (l1 ++ l2) s = storeFriends l2 (storeFriends l1 s).
Proof. unfold storeFriends. apply foldl_app. Qed.

Lemma storeFriends_other_key (friends : list Friend.t) (s : Messer) (k : string) :
  Forall (fun v => Friend.display v <> k) friends ->
  Obj.get (threadMap (storeFriends friends s)) k = Obj.get (threadMap s) k.
Proof.
  induction friends as [|u friends IH] using rev_ind; intros H; [reflexivity|].
  apply Forall_app in H. destruct H as [H Hu]. apply Forall_cons in Hu. destruct Hu as [Hu _].
  rewrite storeFriends_snoc. cbn [threadMap set_userCache set_threadMap].
  rewrite get_set_ne by exact Hu. now apply IH.
Qed.

Lemma storeFriends_other_id (friends : list Friend.t) (s : Messer) (id : string) :
  Forall (fun v => Friend.userID v <> id) friends ->
  userCache (storeFriends friends s) !! id = userCache s !! id.
Proof.
  induction friends as [|u friends IH] using rev_ind; intros H; [reflexivity|].
  apply Forall_app in H. destruct H as [H Hu]. apply Forall_cons in Hu. destruct Hu as [Hu _].
  rewrite storeFriends_snoc. cbn [userCache set_userCache set_threadMap].
  rewrite lookup_insert_ne by exact Hu. now apply IH.
Qed.

(** X2. In the name index and in the user cache the last write wins: after
    a bulk fetch that retrieved the friends list, a name shared by several
    friends is mapped to the identifier of the last of them in the list,
    and an identifier shared by several entries of the list is cached with
    the last entry.  A key that is the name of no friend is as before. *)
Theorem fetchCurrentUser_friends_last_wins
    (w : World) (a : Api) (userID : string) (data : gmap string User)
    (before after : list Friend.t) (u : Friend.t) :
  api (messer w) = Some a ->
  getCurrentUserID a = Data userID ->
  getUserInfo a userID = Data data ->
  getFriendsList a = Data (before ++ u :: after) ->
  let s' := messer (snd (fetchCurrentUser w)) in
  (Forall (fun v => Friend.display v <> Friend.display u) after ->
   Obj.get (threadMap s') (Friend.display u) = Some (Friend.userID u)) /\
  (Forall (fun v => Friend.userID v <> Friend.userID u) after ->
   userCache s' !! Friend.userID u = Some u) /\
  (forall k, Forall (fun v => Friend.display v <> k) (before ++ u :: after) ->
             Obj.get (threadMap s') k = Obj.get (threadMap (messer w)) k).
Proof.
  intros Ha Hid Hinfo Hfriends s'. subst s'.
  rewrite (fetchCurrentUser_run _ _ Ha), Hid, Hinfo, Hfriends. cbn [snd messer].
  destruct (registerThreads_frame (first_page a)
              (storeFriends (before ++ u :: after) (messer w))) as (_ & _ & Hu & Hm).
  rewrite Hu, Hm. split; [|split].
  - intros Hafter. rewrite storeFriends_app.
    change (u :: after) with ([u] ++ after). rewrite storeFriends_app.
    rewrite storeFriends_other_key by exact Hafter.
    cbn [storeFriends foldl threadMap set_userCache set_threadMap].
    apply get_set_eq.
  - intros Hafter. rewrite storeFriends_app.
    change (u :: after) with ([u] ++ after). rewrite storeFriends_app.
    rewrite storeFriends_other_id by exact Hafter.
    cbn [storeFriends foldl userCache set_userCache set_threadMap].
    apply lookup_insert_eq.
  - intros k Hk. now apply storeFriends_other_key.
Qed.

(** ** Invariants of the thread cache *)

Lemma keyed_cacheThread (thread : Thread.t) (s : Messer) :
  keyed s -> keyed (cacheThread thread s).
Proof.
  intros Hs id entry. unfold cacheThread.
  destruct (threadCache s !! Thread.threadID thread) eqn:E; [apply Hs|].
  cbn [threadCache set_threadCache]. rewrite lookup_insert.
  case_decide as Hid; [|apply Hs]. intros [= <-]. exact Hid.
Qed.

Lemma keyed_getThreadByName (name : string) (s : Messer) :
  keyed s -> keyed (snd (getThreadByName name s)).
Proof.
  intros Hs. unfold getThreadByName.
  destruct (threadCache s !! _) as [th|] eqn:E; [|exact Hs].
  destruct (Thread.name th) as [nm|]; [|exact Hs].
  destruct (String.length nm =? 0)%nat; [|exact Hs].
  intros id entry. cbn [snd threadCache set_threadCache]. rewrite lookup_insert.
  case_decide as Hid; [|apply Hs]. intros [= <-]. cbn. rewrite <- Hid. exact (Hs _ _ E).
Qed.

Lemma sound_cacheThread (thread : Thread.t) (s : Messer) :
  sound s -> sound (cacheThread thread s).
Proof.
  intros [Hk Hp]. split; [now apply keyed_cacheThread | now apply projected_cacheThread].
Qed.

Lemma sound_registerThreads (threads : list Thread.t) (s : Messer) :
  sound s -> sound (registerThreads threads s).
Proof.
  revert s. induction threads as [|th threads IH]; intros s Hs; [exact Hs|].
  apply IH. now apply sound_cacheThread.
Qed.

(** Soundness only looks at the thread cache. *)
Lemma sound_same_cache (s s' : Messer) :
  threadCache s' = threadCache s -> sound s -> sound s'.
Proof.
  intros Heq [Hk Hp]. split; intros id entry H; rewrite Heq in H; eauto.
Qed.

Lemma sound_fetchCurrentUser (w : World) :
  sound (messer w) -> sound (messer (snd (fetchCurrentUser w))).
Proof.
  intros Hw. destruct (api (messer w)) as [a|] eqn:Ha.
  - rewrite (fetchCurrentUser_run _ _ Ha).
    destruct (getCurrentUserID a) as [userID|]; [|exact Hw].
    destruct (getUserInfo a userID) as [data|]; [|exact Hw].
    destruct (getFriendsList a) as [friends|]; [|exact Hw].
    cbn [snd messer]. apply sound_registerThreads.
    apply (sound_same_cache (messer w)); [apply storeFriends_threadCache|exact Hw].
  - unfold fetchCurrentUser, bind, this. cbn [messer]. now rewrite Ha.
Qed.

Lemma sound_getThreadById (threadID : string) (w : World) :
  sound (messer w) -> sound (messer (snd (getThreadById threadID w))).
Proof.
  intros Hw. destruct (api (messer w)) as [a|] eqn:Ha.
  - rewrite (getThreadById_run threadID w a Ha).
    destruct (threadCache (messer w) !! threadID); [exact Hw|].
    destruct (getThreadInfo a threadID); [|exact Hw].
    cbn [snd messer]. now apply sound_cacheThread.
  - unfold getThreadById, getThreadById_executor.
    destruct (threadCache (messer w) !! threadID); [exact Hw|].
    now rewrite Ha.
Qed.

Lemma sound_authenticate (facebook : Credentials -> response Api)
    (c : Credentials) (w : World) :
  sound (messer w) -> sound (messer (snd (authenticate facebook c w))).
Proof.
  intros Hw. rewrite authenticate_run.
  destruct (facebook c) as [fbApi|err]; [|exact Hw].
  match goal with |- context [fetchCurrentUser ?w0] =>
    pose proof (sound_fetchCurrentUser w0) as Hf;
    destruct (fetchCurrentUser w0) as [[u|r] w'] end;
    cbn [snd messer] in *.
  - apply (sound_same_cache (messer w')); [reflexivity|]. apply Hf.
    now apply (sound_same_cache (messer w)).
  - apply Hf. now apply (sound_same_cache (messer w)).
Qed.

(** X3. Two invariants of the thread cache hold through the whole
    session: every entry is stored under its own threadID, and every entry
    has name and threadID only.  They hold for a new session and are kept by
    cacheThread, getThreadByName, fetchCurrentUser, getThreadById and
    authenticate; so a thread found in the cache always carries the
    identifier it was asked under. *)
Theorem thread_cache_sound (w : World) :
  sound (messer w) ->
  sound new_Messer /\
  (forall thread, sound (cacheThread thread (messer w))) /\
  (forall name, sound (snd (getThreadByName name (messer w)))) /\
  sound (messer (snd (fetchCurrentUser w))) /\
  (forall threadID, sound (messer (snd (getThreadById threadID w)))) /\
  (forall facebook c, sound (messer (snd (authenticate facebook c w)))) /\
  (forall threadID entry,
      threadCache (messer w) !! threadID = Some entry ->
      fst (getThreadById threadID w) = Normal entry /\
      Thread.threadID entry = threadID /\ Thread.others entry = []).
Proof.
  intros Hw. split; [|split; [|split; [|split; [|split; [|split]]]]].
  - split; intros id entry H; cbn in H; now rewrite lookup_empty in H.
  - intros thread. now apply sound_cacheThread.
  - intros name. destruct Hw as [Hk Hp].
    split; [now apply keyed_getThreadByName | now apply projected_getThreadByName].
  - now apply sound_fetchCurrentUser.
  - intros threadID. now apply sound_getThreadById.
  - intros facebook c. now apply sound_authenticate.
  - intros threadID entry H. destruct Hw as [Hk Hp].
    unfold getThreadById. rewrite (executor_hit _ _ _ H). eauto.
Qed.

Lemma thread_cache_sound_witness : sound (messer Sample.ready).
Proof.
  assert (H0 : sound (messer (Sample.logged_in Sample.fbApi))).
  { split; intros id entry H; cbn in H; rewrite lookup_empty in H; discriminate H. }
  destruct (thread_cache_sound (Sample.logged_in Sample.fbApi) H0)
    as (_ & _ & _ & H & _).
  exact H.
Defined.

(** ** More on getThreadByName *)

Lemma lower_char_idem (c : ascii) :
  JsString.lower_char (JsString.lower_char c) = JsString.lower_char c.
Proof.
  destruct c as [[] [] [] [] [] [] [] []]; vm_compute; reflexivity.
Qed.

Lemma toLowerCase_idem (s : string) :
  JsString.toLowerCase (JsString.toLowerCase s) = JsString.toLowerCase s.
Proof.
  induction s as [|c s IH]; [reflexivity|]. cbn. now rewrite lower_char_idem, IH.
Qed.

Lemma startsWith_refl (s : string) : JsString.startsWith s s = true.
Proof.
  induction s as [|c s IH]; [reflexivity|]. cbn. now rewrite Ascii.eqb_refl, IH.
Qed.

Lemma startsWith_empty (s : string) : JsString.startsWith s "" = true.
Proof. now destruct s. Qed.

Lemma find_ext {A} (p q : A -> bool) (l : list A) :
  (forall x, p x = q x) -> find p l = find q l.
Proof.
  intros H. induction l as [|x l IH]; [reflexivity|]. cbn. now rewrite H, IH.
Qed.

(** The lookup only depends on the lower-case form of the query. *)
Lemma getThreadByName_ext (s : Messer) (q q' : string) :
  JsString.toLowerCase q' = JsString.toLowerCase q ->
  getThreadByName q' s = getThreadByName q s.
Proof.
  intros H. unfold getThreadByName.
  rewrite (find_ext (name_matches q') (name_matches q)); [reflexivity|].
  intros n. unfold name_matches. now rewrite H.
Qed.

(** X4. The lookup by name does not see the case of the query: the
    lower-case form of a query gives the same result and the same session as
    the query, and so do two queries with the same lower-case form. *)
Theorem getThreadByName_case_insensitive (s : Messer) (q : string) :
  getThreadByName (JsString.toLowerCase q) s = getThreadByName q s /\
  forall q', JsString.toLowerCase q' = JsString.toLowerCase q ->
             getThreadByName q' s = getThreadByName q s.
Proof.
  split.
  - apply getThreadByName_ext, toLowerCase_idem.
  - intros q'. apply getThreadByName_ext.
Qed.

(** What the lookup does once [find] has chosen a key. *)
Lemma getThreadByName_found (s : Messer) (q : string) (threadName : option string)
    (id nm : string) (th : Thread.t) :
  find (name_matches q) (Obj.keys (threadMap s)) = threadName ->
  Obj.get (threadMap s) (property_key threadName) = Some id ->
  threadCache s !! id = Some th ->
  Thread.name th = Some nm ->
  getThreadByName q s =
    if (String.length nm =? 0)%nat
    then (Normal (Thread.set_name threadName th),
          set_threadCache (<[id := Thread.set_name threadName th]> (threadCache s)) s)
    else (Normal th, s).
Proof.
  intros Hfind Hid Hth Hnm. unfold getThreadByName.
  rewrite Hfind, Hid. cbn [property_key]. now rewrite Hth, Hnm.
Qed.

(** X5. The empty query matches every key: on a name index with at least
    one key it resolves to the first key that Object.keys enumerates, and
    returns the thread cached for it (an empty name being replaced by that
    key). *)
Theorem getThreadByName_empty_query (s : Messer) (k id nm : string)
    (rest : list string) (th : Thread.t) :
  Obj.keys (threadMap s) = k :: rest ->
  Obj.get (threadMap s) k = Some id ->
  threadCache s !! id = Some th ->
  Thread.name th = Some nm ->
  getThreadByName "" s =
    if (String.length nm =? 0)%nat
    then (Normal (Thread.set_name (Some k) th),
          set_threadCache (<[id := Thread.set_name (Some k) th]> (threadCache s)) s)
    else (Normal th, s).
Proof.
  intros Hkeys Hid Hth Hnm.
  apply (getThreadByName_found s "" (Some k) id nm th); try assumption.
  rewrite Hkeys. cbn [find]. unfold name_matches. cbn [JsString.toLowerCase].
  now rewrite startsWith_empty.
Qed.

Lemma getThreadByName_empty_query_witness :
  fst (getThreadByName "" (messer Sample.ready))
  = Normal (Thread.mk (Some "Alice") "1" []).
Proof.
  exact (f_equal fst
           (getThreadByName_empty_query (messer Sample.ready) "Alice" "1" ""
              ["alina"] (Thread.mk (Some "") "1" []) eq_refl eq_refl eq_refl eq_refl)).
Defined.

(** X6. A query that no key starts with is looked up under the key
    "undefined".  When a friend without name and fullName was stored under
    that key and its thread is cached with a name, getThreadByName returns
    that thread instead of failing; if the cached name is empty it is
    replaced by undefined, and from then on the same query throws. *)
Theorem getThreadByName_no_match_undefined_key (s : Messer) (q id nm : string)
    (th : Thread.t) :
  Forall (fun n => name_matches q n = false) (Obj.keys (threadMap s)) ->
  Obj.get (threadMap s) "undefined" = Some id ->
  threadCache s !! id = Some th ->
  Thread.name th = Some nm ->
  getThreadByName q s =
    (if (String.length nm =? 0)%nat
     then (Normal (Thread.set_name None th),
           set_threadCache (<[id := Thread.set_name None th]> (threadCache s)) s)
     else (Normal th, s)) /\
  (nm = "" ->
   fst (getThreadByName q (snd (getThreadByName q s)))
   = Abrupt (TypeError "Cannot read property 'length' of undefined")).
Proof.
  intros Hnone Hid Hth Hnm.
  assert (Hrun := getThreadByName_found s q None id nm th (find_none _ _ Hnone) Hid Hth Hnm).
  split; [exact Hrun|].
  intros ->. rewrite Hrun. cbn [String.length Nat.eqb snd].
  unfold getThreadByName. cbn [threadMap set_threadCache threadCache].
  rewrite (find_none _ _ Hnone). cbn [property_key]. rewrite Hid. cbn [property_key].
  now rewrite lookup_insert_eq.
Qed.

Lemma getThreadByName_no_match_undefined_key_witness :
  fst (getThreadByName "bob" (messer Demo.ready)) = Normal (Thread.mk None "9" []) /\
  fst (getThreadByName "bob" (snd (getThreadByName "bob" (messer Demo.ready))))
  = Abrupt (TypeError "Cannot read property 'length' of undefined").
Proof.
  destruct (getThreadByName_no_match_undefined_key (messer Demo.ready) "bob" "9" ""
              (Thread.mk (Some "") "9" [])
              ltac:(repeat constructor) eq_refl eq_refl eq_refl) as [Hrun Hagain].
  split; [exact (f_equal fst Hrun) | exact (Hagain eq_refl)].
Defined.

Lemma fetchCurrentUser_friends_last_wins_witness :
  Obj.get (threadMap (messer Demo.ready)) "Sam" = Some "6" /\
  userCache (messer Demo.ready) !! "6" = Some Demo.sam2.
Proof.
  destruct (fetchCurrentUser_friends_last_wins (Sample.logged_in Demo.fbApi) Demo.fbApi
              "100" ∅ [Demo.sam1] [Demo.nameless] Demo.sam2
              eq_refl eq_refl eq_refl eq_refl) as (Hname & Hid & _).
  split.
  - apply Hname. repeat constructor. discriminate.
  - apply Hid. repeat constructor. discriminate.
Defined.

(** The keys that Object.keys enumerates are names of properties. *)
Lemma insert_sorted_In (x y : N * string) (l : list (N * string)) :
  In x (Obj.insert_sorted y l) -> x = y \/ In x l.
Proof.
  induction l as [|z l IH]; cbn.
  - intros [<-|[]]. now left.
  - destruct (fst y <=? fst z)%N; cbn; intros [H|H]; auto.
    destruct (IH H); auto.
Qed.

Lemma index_keys_In (n : N) (k : string) (ks : list string) :
  In (n, k) (Obj.index_keys ks) -> In k ks.
Proof.
  induction ks as [|k' ks IH]; cbn; [tauto|].
  destruct (Obj.array_index k') as [m|]; [|now right; apply IH].
  intros H. apply insert_sorted_In in H. destruct H as [[= _ ->]|H]; [now left|].
  right. now apply IH.
Qed.

Lemma keys_In_names {V} (o : Obj.t V) (k : string) :
  In k (Obj.keys o) -> In k (Obj.names o).
Proof.
  unfold Obj.keys. rewrite in_app_iff. intros [H|H].
  - apply in_map_iff in H. destruct H as ([n k'] & <- & H). now apply index_keys_In in H.
  - apply list_elem_of_In, list_elem_of_filter in H. destruct H as [_ H].
    now apply list_elem_of_In.
Qed.

Lemma get_named {V} (o : Obj.t V) (k : string) :
  In k (Obj.names o) -> is_Some (Obj.get o k).
Proof.
  induction o as [|[k' v] o IH]; cbn; [tauto|].
  destruct (String.eqb k k') eqn:E; [eauto|].
  intros [->|H]; [|now apply IH]. now rewrite String.eqb_refl in E.
Qed.

Lemma find_In {A} (p : A -> bool) (l : list A) (x : A) :
  p x = true -> In x l -> exists y, find p l = Some y /\ In y l /\ p y = true.
Proof.
  intros Hx. induction l as [|z l IH]; cbn; [tauto|].
  destruct (p z) eqn:E.
  - intros _. exists z. auto.
  - intros [->|H]; [congruence|]. destruct (IH H) as (y & Hy & Hin & Hp). eauto.
Qed.

(** X7. A name index whose identifiers all have a cached thread with a
    name never makes the lookup fail: every query that some key starts
    with, and so every key itself, returns a thread, and the property still
    holds afterwards. *)
Theorem getThreadByName_resolves (s : Messer) (q k : string) :
  resolves s ->
  In k (Obj.keys (threadMap s)) ->
  name_matches q k = true ->
  name_matches k k = true /\
  exists th, fst (getThreadByName q s) = Normal th /\
             resolves (snd (getThreadByName q s)).
Proof.
  intros Hres Hin Hmatch. split.
  { unfold name_matches. apply startsWith_refl. }
  destruct (find_In _ _ _ Hmatch Hin) as (k' & Hfind & Hin' & _).
  destruct (get_named _ _ (keys_In_names _ _ Hin')) as [id Hid].
  destruct (Hres _ _ Hid) as (th & nm & Hth & Hnm).
  rewrite (getThreadByName_found s q (Some k') id nm th Hfind Hid Hth Hnm).
  destruct (String.length nm =? 0)%nat; cbn [fst snd]; eexists; split; try reflexivity;
    [|exact Hres].
  intros j idj Hj. cbn [threadMap set_threadCache threadCache] in *.
  destruct (Hres _ _ Hj) as (thj & nmj & Hthj & Hnmj).
  destruct (decide (id = idj)) as [<-|Hne].
  - rewrite lookup_insert_eq. eexists _, k'. split; [reflexivity|reflexivity].
  - rewrite lookup_insert_ne by exact Hne. eauto.
Qed.

Lemma getThreadByName_resolves_witness :
  exists th, fst (getThreadByName "al" (messer Sample.ready)) = Normal th.
Proof.
  assert (Hres : resolves (messer Sample.ready)).
  { intros k id H.
    change (threadMap (messer Sample.ready)) with [("Alice", "1"); ("alina", "2")] in H.
    cbn [Obj.get] in H.
    destruct (String.eqb k "Alice");
      [|destruct (String.eqb k "alina"); [|discriminate H]];
      injection H as <-; eexists _, _; (split; [vm_compute; reflexivity | reflexivity]). }
  destruct (getThreadByName_resolves (messer Sample.ready) "al" "alina" Hres
              ltac:(right; left; reflexivity) eq_refl) as (_ & th & Hth & _).
  exists th. exact Hth.
Defined.

(** X8. The repair of an empty name happens once and touches nothing
    else.  When some key starts with the query, a second call returns what
    the first returned and leaves the session as the first left it; the
    call never changes the backend handle, the user, the user cache or the
    name index, never adds or removes a cached thread, and never changes an
    entry whose name is not the empty string. *)
Theorem getThreadByName_repairs_once (s : Messer) (q k : string) :
  find (name_matches q) (Obj.keys (threadMap s)) = Some k ->
  let r := getThreadByName q s in
  getThreadByName q (snd r) = (fst r, snd r) /\
  api (snd r) = api s /\ user (snd r) = user s /\
  userCache (snd r) = userCache s /\ threadMap (snd r) = threadMap s /\
  dom (threadCache (snd r)) = dom (threadCache s) /\
  forall id e, threadCache s !! id = Some e -> Thread.name e <> Some "" ->
               threadCache (snd r) !! id = Some e.
Proof.
  intros Hfind r. subst r. unfold getThreadByName at 2 3 4 5 6 7 8 9 10.
  rewrite Hfind. cbn [property_key].
  set (key := property_key (Obj.get (threadMap s) k)).
  destruct (threadCache s !! key) as [th|] eqn:Hth; cbn [fst snd].
  2:{ unfold getThreadByName. rewrite Hfind. cbn [property_key]. fold key.
      rewrite Hth. now repeat split. }
  destruct (Thread.name th) as [nm|] eqn:Hnm; cbn [fst snd].
  2:{ unfold getThreadByName. rewrite Hfind. cbn [property_key]. fold key.
      rewrite Hth, Hnm. now repeat split. }
  destruct nm as [|c nm]; cbn [String.length Nat.eqb fst snd].
  2:{ unfold getThreadByName. rewrite Hfind. cbn [property_key]. fold key.
      rewrite Hth, Hnm. cbn [String.length Nat.eqb]. now repeat split. }
  split; [|split; [|split; [|split; [|split; [|split]]]]]; try reflexivity.
  - unfold getThreadByName. cbn [threadMap set_threadCache threadCache].
    rewrite Hfind. cbn [property_key]. fold key. rewrite lookup_insert_eq.
    cbn [Thread.name Thread.set_name].
    destruct (String.length k =? 0)%nat; [|reflexivity].
    unfold Thread.set_name at 1 3. cbn [Thread.threadID Thread.others Thread.set_name].
    now rewrite insert_insert_eq.
  - cbn [threadCache set_threadCache]. rewrite dom_insert_L.
    assert (key ∈ dom (threadCache s)) by (apply elem_of_dom; eauto). set_solver.
  - intros id e He Hne. cbn [threadCache set_threadCache].
    destruct (decide (key = id)) as [<-|Hk]; [|now rewrite lookup_insert_ne].
    congruence.
Qed.

Lemma getThreadByName_repairs_once_witness :
  getThreadByName "ali" (snd (getThreadByName "ali" (messer Sample.ready)))
  = (Normal (Thread.mk (Some "Alice") "1" []),
     snd (getThreadByName "ali" (messer Sample.ready))).
Proof.
  destruct (getThreadByName_repairs_once (messer Sample.ready) "ali" "Alice" eq_refl)
    as (Hagain & _).
  exact Hagain.
Defined.

(** ** Schedules of getThreadById calls *)

Lemma step_counts (st : Loop.t) (a : Loop.action) :
  length (Loop.pending (Loop.step st a)) + length (Loop.settled (Loop.step st a))
  = length (Loop.pending st) + length (Loop.settled st) + invocations [a].
Proof.
  destruct a as [caller threadID|k r]; cbn [Loop.step invocations List.filter length].
  - destruct (getThreadById_executor threadID (Loop.world st)) as [[c|] w'];
      cbn [Loop.pending Loop.settled]; rewrite length_app; cbn [length]; lia.
  - destruct (Loop.pending st !! k) as [[caller threadID]|] eqn:Hk; [|lia].
    destruct (getThreadById_callback _ _) as [c w'].
    cbn [Loop.pending Loop.settled].
    rewrite length_app, length_delete by eauto. cbn [length].
    apply lookup_lt_Some in Hk. lia.
Qed.

Lemma executor_trace (threadID : string) (w : World) :
  trace (snd (getThreadById_executor threadID w)) = trace w \/
  (fst (getThreadById_executor threadID w) = None /\
   trace (snd (getThreadById_executor threadID w))
   = trace w ++ [Call (ReqThreadInfo threadID)]).
Proof.
  unfold getThreadById_executor.
  destruct (threadCache (messer w) !! threadID); [now left|].
  destruct (api (messer w)); [right|left]; now cbn.
Qed.

Lemma callback_trace (r : response Thread.t) (w : World) (id : string) :
  List.filter (Loop.is_fetch id) (trace (snd (getThreadById_callback r w)))
  = List.filter (Loop.is_fetch id) (trace w).
Proof.
  destruct r as [th|err]; [|reflexivity].
  rewrite callback_data. cbn [snd trace]. rewrite List.filter_app. cbn.
  now rewrite app_nil_r.
Qed.

Lemma step_fetches (st : Loop.t) (a : Loop.action) (id : string) :
  Loop.fetches id (Loop.step st a) <= Loop.fetches id st + invocations [a].
Proof.
  unfold Loop.fetches.
  destruct a as [caller threadID|k r]; cbn [Loop.step invocations List.filter length].
  - pose proof (executor_trace threadID (Loop.world st)) as Ht.
    destruct (getThreadById_executor threadID (Loop.world st)) as [[c|] w'];
      cbn [fst snd Loop.world] in *.
    + destruct Ht as [->|[[=] _]]. lia.
    + destruct Ht as [->|[_ ->]]; [lia|].
      rewrite List.filter_app, length_app. cbn [List.filter].
      destruct (Loop.is_fetch id _); cbn [length]; lia.
  - destruct (Loop.pending st !! k) as [[caller threadID]|]; [|lia].
    pose proof (callback_trace r (Loop.world st) id) as Hc.
    destruct (getThreadById_callback _ _) as [c w'].
    cbn [snd Loop.world] in *. rewrite Hc. lia.
Qed.

Lemma invocations_cons (a : Loop.action) (l : list Loop.action) :
  invocations (a :: l) = invocations [a] + invocations l.
Proof.
  unfold invocations. cbn [List.filter]. destruct a; cbn [length]; lia.
Qed.

(** X9. In every schedule of calls and answers, each call of getThreadById
    is either in flight or settled, and counted once: the requests in
    flight and the settled promises together grow by the number of calls.
    The getThreadInfo requests issued for an identifier grow by that
    number at most. *)
Theorem schedule_accounts_for_calls (st : Loop.t) (l : list Loop.action) (id : string) :
  length (Loop.pending (Loop.run st l)) + length (Loop.settled (Loop.run st l))
  = length (Loop.pending st) + length (Loop.settled st) + invocations l /\
  Loop.fetches id (Loop.run st l) <= Loop.fetches id st + invocations l.
Proof.
  revert st. induction l as [|a l IH]; intros st.
  - cbn. split; lia.
  - cbn [Loop.run foldl]. fold (Loop.run (Loop.step st a) l).
    destruct (IH (Loop.step st a)) as [Hc Hf].
    pose proof (step_counts st a). pose proof (step_fetches st a id).
    rewrite invocations_cons. split; lia.
Qed.

Lemma step_keeps_cached (st : Loop.t) (a : Loop.action) (id : string) (e : Thread.t) :
  threadCache (messer (Loop.world st)) !! id = Some e ->
  threadCache (messer (Loop.world (Loop.step st a))) !! id = Some e /\
  Loop.fetches id (Loop.step st a) = Loop.fetches id st.
Proof.
  intros He. unfold Loop.fetches.
  destruct a as [caller threadID|k r]; cbn [Loop.step].
  - unfold getThreadById_executor.
    destruct (threadCache (messer (Loop.world st)) !! threadID) eqn:Hc;
      [now cbn|].
    destruct (api (messer (Loop.world st))); [|now cbn].
    cbn [Loop.world messer trace]. split; [exact He|].
    rewrite List.filter_app. cbn [List.filter Loop.is_fetch].
    destruct (String.eqb threadID id) eqn:E; [|now rewrite app_nil_r].
    apply String.eqb_eq in E. congruence.
  - destruct (Loop.pending st !! k) as [[caller threadID]|]; [|now split].
    pose proof (callback_trace r (Loop.world st) id) as Hc.
    destruct r as [th|err]; [|now split].
    rewrite callback_data in *. cbn [Loop.world messer snd] in *.
    split; [now apply extends_cacheThread | now rewrite Hc].
Qed.

(** X10. Once a thread is cached under an identifier, no schedule of calls
    and answers issues a getThreadInfo request for that identifier again,
    and the entry stays as it is. *)
Theorem cached_thread_never_fetched (st : Loop.t) (l : list Loop.action)
    (id : string) (e : Thread.t) :
  threadCache (messer (Loop.world st)) !! id = Some e ->
  Loop.fetches id (Loop.run st l) = Loop.fetches id st /\
  threadCache (messer (Loop.world (Loop.run st l))) !! id = Some e.
Proof.
  revert st. induction l as [|a l IH]; intros st He; [now split|].
  cbn [Loop.run foldl]. fold (Loop.run (Loop.step st a) l).
  destruct (step_keeps_cached st a id e He) as [He' Hf].
  destruct (IH _ He') as [Hf' He'']. split; [congruence|exact He''].
Qed.

Lemma cached_thread_never_fetched_witness :
  Loop.fetches "1"
    (Loop.run (Loop.mk Sample.ready [] [])
       [Loop.Invoke 1 "1"; Loop.Invoke 2 "3";
        Loop.Respond 0 (Data Sample.group_thread); Loop.Invoke 3 "1"]) = 0.
Proof.
  destruct (cached_thread_never_fetched (Loop.mk Sample.ready [] [])
              [Loop.Invoke 1 "1"; Loop.Invoke 2 "3";
        Loop.Respond 0 (Data Sample.group_thread); Loop.Invoke 3 "1"]
              "1" (Thread.mk (Some "") "1" []) eq_refl) as [Hf _].
  exact Hf.
Defined.

(** X11. The cache is filled under the threadID of the record, not under
    the identifier asked for.  When the backend answers a request with a
    record that carries another threadID, the promise is fulfilled with
    that record but the identifier asked for is still not cached: the next
    call for it issues a new request and changes nothing in the session. *)
Theorem getThreadById_foreign_record
    (threadID : string) (w : World) (a : Api) (thread : Thread.t) :
  api (messer w) = Some a ->
  threadCache (messer w) !! threadID = None ->
  getThreadInfo a threadID = Data thread ->
  Thread.threadID thread <> threadID ->
  let w1 := snd (getThreadById threadID w) in
  fst (getThreadById threadID w) = Normal thread /\
  threadCache (messer w1) !! threadID = None /\
  getThreadById threadID w1 =
    (Normal thread,
     {| messer := messer w1;
        trace := trace w1 ++ [Call (ReqThreadInfo threadID); CacheThread thread] |}).
Proof.
  intros Ha Hc Hd Hne w1. subst w1.
  rewrite (getThreadById_run _ _ _ Ha), Hc, Hd. cbn [fst snd].
  assert (Hstill : threadCache (cacheThread thread (messer w)) !! threadID = None).
  { unfold cacheThread. destruct (threadCache (messer w) !! Thread.threadID thread);
      [exact Hc|]. cbn [threadCache set_threadCache]. now rewrite lookup_insert_ne. }
  split; [reflexivity|]. split; [exact Hstill|].
  erewrite getThreadById_run;
    [|cbn [messer]; destruct (cacheThread_frame thread (messer w)) as [-> _]; exact Ha].
  cbn [messer trace]. rewrite Hstill, Hd.
  destruct (cacheThread_twice (messer w) thread thread eq_refl) as [-> _].
  reflexivity.
Qed.

Lemma getThreadById_foreign_record_witness :
  fst (getThreadById "3" Demo.ready) = Normal (Thread.mk (Some "other") "77" []) /\
  threadCache (messer (snd (getThreadById "3" Demo.ready))) !! "3" = None.
Proof.
  destruct (getThreadById_foreign_record "3" Demo.ready Demo.fbApi
              (Thread.mk (Some "other") "77" []) eq_refl eq_refl eq_refl
              ltac:(discriminate)) as (H1 & H2 & _).
  split; [exact H1 | exact H2].
Defined.

(** ** Login and start-up *)

Lemma fetchCurrentUser_frame (w : World) :
  api (messer (snd (fetchCurrentUser w))) = api (messer w) /\
  user (messer (snd (fetchCurrentUser w))) = user (messer w) /\
  exists rest,
    trace (snd (fetchCurrentUser w)) = trace w ++ rest /\
    List.filter is_SavedAppState rest = [].
Proof.
  destruct (api (messer w)) as [a|] eqn:Ha.
  - rewrite (fetchCurrentUser_run _ _ Ha).
    destruct (getCurrentUserID a) as [userID|];
      [|split; [exact Ha|split; [reflexivity|cbn; eauto]]].
    destruct (getUserInfo a userID) as [data|];
      [|split; [exact Ha|split; [reflexivity|cbn; eauto]]].
    destruct (getFriendsList a) as [friends|];
      [|split; [exact Ha|split; [reflexivity|cbn; eauto]]].
    cbn [snd messer trace].
    destruct (registerThreads_frame (first_page a) (storeFriends friends (messer w)))
      as (-> & -> & _).
    destruct (storeFriends_api friends (messer w)) as [-> ->].
    split; [exact Ha|]. split; [reflexivity|]. eexists. split; [reflexivity|].
    rewrite !List.filter_app. cbn [List.filter is_SavedAppState app].
    assert (H1 : List.filter is_SavedAppState (flat_map friend_events friends) = []).
    { induction friends as [|u l IH]; [reflexivity|exact IH]. }
    assert (H2 : List.filter is_SavedAppState (map CacheThread (first_page a)) = []).
    { induction (first_page a) as [|t l IH]; [reflexivity|exact IH]. }
    now rewrite H1, H2.
  - unfold fetchCurrentUser, bind, this. cbn [messer]. rewrite Ha. cbn [fail snd].
    split; [exact Ha|]. split; [reflexivity|]. exists []. now rewrite app_nil_r.
Qed.

(** X12. A refused login leaves the session as it was and saves no app
    state.  An accepted login stores the handle of the backend and saves
    its app state once, before the bulk fetch, and these stay even when the
    bulk fetch then fails; the user is stored only when the bulk fetch
    succeeds. *)
Theorem authenticate_session (facebook : Credentials -> response Api)
    (c : Credentials) (w : World) :
  let r := authenticate facebook c w in
  match facebook c with
  | Failure _ =>
      messer (snd r) = messer w /\
      trace (snd r) = trace w ++ [Logged (Str "Logging in..."); Login]
  | Data fbApi =>
      api (messer (snd r)) = Some fbApi /\
      (exists rest,
          trace (snd r)
          = trace w ++ [Logged (Str "Logging in..."); Login;
                        SavedAppState (getAppState fbApi);
                        Logged (Str "Fetching your details...")] ++ rest /\
          List.filter is_SavedAppState rest = []) /\
      match fst r with
      | Normal _ => is_Some (user (messer (snd r)))
      | Abrupt _ => user (messer (snd r)) = user (messer w)
      end
  end.
Proof.
  intros r. subst r. rewrite authenticate_run.
  destruct (facebook c) as [fbApi|err]; [|now split].
  match goal with |- context [fetchCurrentUser ?w0] =>
    destruct (fetchCurrentUser_frame w0) as (Hapi & Huser & rest & Htr & Hrest);
    destruct (fetchCurrentUser w0) as [[u|e] w'] end;
    cbn [fst snd messer trace set_api set_user api user] in *.
  - split; [exact Hapi|]. split; [|eauto]. exists rest. split; [|exact Hrest].
    rewrite Htr. now rewrite <- app_assoc.
  - split; [exact Hapi|]. split; [|exact Huser]. exists rest. split; [|exact Hrest].
    rewrite Htr. now rewrite <- app_assoc.
Qed.



(** X14. From login to lookup.  In a session that starts with an empty
    name index and an empty thread cache, after authenticate has succeeded
    against a backend whose friends have distinct names, none of them an
    array index, a query resolves to the first friend of the list whose
    name starts with it; when the thread page has a thread with a name under
    that friend's identifier, getThreadByName returns the projection of the
    first such thread, with an empty name replaced by the friend's name.
    The lookup reads the session only. *)
Theorem login_then_lookup
    (facebook : Credentials -> response Api) (c : Credentials) (w : World) (a : Api)
    (userID q nm : string) (data : gmap string User)
    (before_f after_f : list Friend.t) (u : Friend.t)
    (before_t after_t : list Thread.t) (th : Thread.t) :
  threadMap (messer w) = [] ->
  threadCache (messer w) = ∅ ->
  facebook c = Data a ->
  getCurrentUserID a = Data userID ->
  getUserInfo a userID = Data data ->
  getFriendsList a = Data (before_f ++ u :: after_f) ->
  List.NoDup (map Friend.display (before_f ++ u :: after_f)) ->
  Forall (fun k => Obj.is_index k = false) (map Friend.display (before_f ++ u :: after_f)) ->
  Forall (fun v => name_matches q (Friend.display v) = false) before_f ->
  name_matches q (Friend.display u) = true ->
  getThreadList a 0 20 = Data (before_t ++ th :: after_t) ->
  Forall (fun x => Thread.threadID x <> Thread.threadID th) before_t ->
  Thread.threadID th = Friend.userID u ->
  Thread.name th = Some nm ->
  fst (authenticate facebook c w) = Normal tt /\
  fst (getThreadByName q (messer (snd (authenticate facebook c w))))
  = Normal (if (String.length nm =? 0)%nat
            then Thread.mk (Some (Friend.display u)) (Friend.userID u) []
            else Thread.mk (Some nm) (Friend.userID u) []).
Proof.
  intros Hmap Hcache Hlogin Hid Hinfo Hfriends Hnd Hidx Hbefore Hmatch Hpage Hbt Htid Hnm.
  rewrite authenticate_run, Hlogin.
  erewrite (fetchCurrentUser_run _ a); [|reflexivity].
  rewrite Hid, Hinfo, Hfriends.
  cbn [fst snd messer]. split; [reflexivity|].
  set (s0 := set_api a (messer w)).
  set (friends := before_f ++ u :: after_f) in *.
  set (s1 := storeFriends friends s0).
  set (s2 := registerThreads (first_page a) s1).
  destruct (registerThreads_frame (first_page a) s1) as (_ & _ & _ & Hm2).
  fold s2 in Hm2.
  assert (Hkeys : Obj.keys (threadMap s2) = map Friend.display friends).
  { rewrite Hm2. apply storeFriends_keys; [exact Hmap|exact Hnd|exact Hidx]. }
  assert (Hfind : find (name_matches q) (Obj.keys (threadMap (set_user (fetched_user userID data) s2)))
                  = Some (Friend.display u)).
  { cbn [threadMap set_user]. rewrite Hkeys. unfold friends.
    rewrite map_app. cbn [map]. apply find_first; [|exact Hmatch].
    apply List.Forall_forall. intros k Hk. apply in_map_iff in Hk.
    destruct Hk as (v & <- & Hv). revert v Hv. now apply List.Forall_forall. }
  assert (Hafter : Forall (fun v => Friend.display v <> Friend.display u) after_f).
  { apply List.Forall_forall. intros v Hv Heq.
    unfold friends in Hnd. rewrite map_app in Hnd. cbn [map] in Hnd.
    apply List.NoDup_remove_2 in Hnd. apply Hnd, in_or_app. right.
    rewrite <- Heq. now apply in_map. }
  assert (Hget : Obj.get (threadMap (set_user (fetched_user userID data) s2))
                   (Friend.display u) = Some (Friend.userID u)).
  { cbn [threadMap set_user]. rewrite Hm2. unfold s1, friends.
    rewrite storeFriends_app.
    change (u :: after_f) with ([u] ++ after_f). rewrite storeFriends_app.
    rewrite storeFriends_other_key by exact Hafter.
    cbn [storeFriends foldl threadMap set_userCache set_threadMap].
    apply get_set_eq. }
  assert (Hth : threadCache (set_user (fetched_user userID data) s2) !! Friend.userID u
                = Some (projection th)).
  { cbn [threadCache set_user]. unfold s2, first_page. rewrite Hpage, <- Htid.
    apply registerThreads_first; [exact Hbt|].
    unfold s1. rewrite storeFriends_threadCache. unfold s0. cbn [threadCache set_api].
    rewrite Hcache. apply lookup_empty. }
  rewrite (getThreadByName_found _ q (Some (Friend.display u)) (Friend.userID u) nm
             (projection th) Hfind Hget Hth Hnm).
  unfold projection, Thread.set_name. cbn [Thread.name Thread.threadID Thread.others].
  rewrite Htid, Hnm. now destruct (String.length nm =? 0)%nat.
Qed.

Lemma login_then_lookup_witness :
  fst (authenticate Demo.accept (Sample.credentials "hunter2") Demo.fresh) = Normal tt /\
  fst (getThreadByName "ALI"
         (messer (snd (authenticate Demo.accept (Sample.credentials "hunter2") Demo.fresh))))
  = Normal (Thread.mk (Some "Alice") "1" []).
Proof.
  apply (login_then_lookup Demo.accept (Sample.credentials "hunter2") Demo.fresh
           Sample.fbApi "100" "ALI" "" {[ "100" := {[ "name" := "Me" ]} ]}
           [] [Sample.alina] Sample.alice [] [Sample.alina_thread] Sample.alice_thread);
    try reflexivity.
  - repeat constructor; cbn; intuition discriminate.
  - repeat constructor.
  - constructor.
  - constructor.
Defined.

(** ** The name that processCommand looks up *)

Lemma append_cons (a : ascii) (s t : string) :
  String a s +:+ t = String a (s +:+ t).
Proof. reflexivity. Qed.

Lemma remove_first_app (c : ascii) (s t : string) :
  contains c s = false ->
  JsString.remove_first c (s +:+ t) = s +:+ JsString.remove_first c t.
Proof.
  induction s as [|a s IH]; [reflexivity|].
  rewrite !append_cons. cbn [contains JsString.remove_first].
  intros H. apply orb_false_iff in H. destruct H as [Ha Hs].
  rewrite Ha. now rewrite IH.
Qed.

Lemma split_app_sep (c : ascii) (s t : string) :
  contains c s = false ->
  JsString.split c (s +:+ String c t) = s :: JsString.split c t.
Proof.
  induction s as [|a s IH].
  - intros _. change ("" +:+ String c t) with (String c t).
    cbn [JsString.split]. now rewrite Ascii.eqb_refl.
  - rewrite append_cons. cbn [contains JsString.split].
    intros H. apply orb_false_iff in H. destruct H as [Ha Hs].
    rewrite Ha. now rewrite IH.
Qed.

Lemma split_no_sep (c : ascii) (s : string) :
  contains c s = false -> JsString.split c s = [s].
Proof.
  induction s as [|a s IH]; cbn [contains JsString.split]; [reflexivity|].
  intros H. apply orb_false_iff in H. destruct H as [Ha Hs].
  rewrite Ha. now rewrite IH.
Qed.

Lemma split_head_no_sep (c : ascii) (s : string) :
  match JsString.split c s with
  | t :: _ => contains c t = false
  | [] => False
  end.
Proof.
  induction s as [|a s IH]; cbn [contains JsString.split]; [reflexivity|].
  destruct (Ascii.eqb a c) eqn:E; [reflexivity|].
  destruct (JsString.split c s) as [|t ts]; [contradiction|].
  cbn [contains]. now rewrite E.
Qed.

Lemma append_empty (s : string) : s +:+ "" = s.
Proof. induction s as [|a s IH]; [reflexivity|]. rewrite append_cons. congruence. Qed.

(** X15. The handler that processCommand looks up for a line typed as a
    name, or as a name, a space and any arguments, each followed or not by
    the line feed, is the one registered under that name, provided the name
    has no space and no line feed in it.  The name looked up never contains
    a space. *)
Theorem command_name_of_line (name args : string) :
  contains " " name = false ->
  contains "010" name = false ->
  command_name name = name /\
  command_name (name +:+ String "010" "") = name /\
  command_name (name +:+ String " " args) = name /\
  forall rawCommand, contains " " (command_name rawCommand) = false.
Proof.
  intros Hsp Hnl. unfold command_name. split; [|split; [|split]].
  - rewrite <- (append_empty name) at 1.
    rewrite (remove_first_app _ _ _ Hnl). cbn [JsString.remove_first].
    now rewrite append_empty, (split_no_sep _ _ Hsp).
  - rewrite (remove_first_app _ _ _ Hnl). cbn [JsString.remove_first].
    rewrite Ascii.eqb_refl.
    now rewrite append_empty, (split_no_sep _ _ Hsp).
  - rewrite (remove_first_app _ _ _ Hnl). cbn [JsString.remove_first].
    change (Ascii.eqb " " "010") with false. cbn iota.
    now rewrite (split_app_sep _ _ _ Hsp).
  - intros rawCommand.
    pose proof (split_head_no_sep " " (JsString.remove_first "010" rawCommand)) as H.
    destruct (JsString.split " " (JsString.remove_first "010" rawCommand)); [contradiction|].
    exact H.
Qed.

Lemma command_name_of_line_witness :
  command_name (String.append "message" (String "010" "")) = "message" /\
  command_name "message bob see you" = "message".
Proof.
  destruct (command_name_of_line "message" "bob see you" eq_refl eq_refl)
    as (_ & Hline & Hargs & _).
  split; [exact Hline | exact Hargs].
Defined.

(** ** helpers.js *)

(** X16. getCredentials never gets past the app state file.  When the file
    is read and parses, the promise is fulfilled with the app state and
    nothing else is read.  When the file cannot be read, the callback asks
    for the credentials file and then throws, because it goes on to parse
    the content it did not get: the promise is never settled.  In no case
    is the user prompted or the promise rejected. *)
Theorem getCredentials_app_state_only (env : Helpers.Env) :
  let r := Helpers.getCredentials env in
  Helpers.queue r = [] /\
  Helpers.logged r = [] /\
  match Helpers.readFile env Helpers.APP_STATE_FILEPATH with
  | Failure _ =>
      Helpers.promise r = None /\ Helpers.uncaught r = true /\
      Helpers.reads r = [Helpers.APP_STATE_FILEPATH; Helpers.creds_path env]
  | Data appstate =>
      Helpers.reads r = [Helpers.APP_STATE_FILEPATH] /\
      match Helpers.parse_appState env appstate with
      | Some v =>
          Helpers.promise r
          = Some (Normal {| email := None; password := None; appState := Some v |}) /\
          Helpers.uncaught r = false
      | None => Helpers.promise r = None /\ Helpers.uncaught r = true
      end
  end.
Proof.
  unfold Helpers.getCredentials. cbn [Helpers.loop Helpers.pop Helpers.queue Helpers.callback
    Helpers.promise Helpers.uncaught Helpers.reads Helpers.logged].
  destruct (Helpers.readFile env Helpers.APP_STATE_FILEPATH) as [appstate|err];
    [|now cbn].
  destruct (Helpers.parse_appState env appstate) as [v|]; now cbn.
Qed.

(** X17. What saveAppState writes is what the next getCredentials
    delivers: when JSON.parse gives back the app state from its
    JSON.stringify form, getCredentials after saveAppState is fulfilled with
    that app state, reads no other file and does not throw. *)
Theorem saveAppState_getCredentials (env : Helpers.Env) (appstate : string) :
  Helpers.parse_appState env (Helpers.stringify env appstate) = Some appstate ->
  let r := Helpers.getCredentials (Helpers.saveAppState appstate env) in
  Helpers.promise r
  = Some (Normal {| email := None; password := None; appState := Some appstate |}) /\
  Helpers.reads r = [Helpers.APP_STATE_FILEPATH] /\
  Helpers.uncaught r = false.
Proof.
  intros Hparse. unfold Helpers.getCredentials.
  cbn [Helpers.loop Helpers.pop Helpers.queue Helpers.callback Helpers.saveAppState
       Helpers.readFile Helpers.parse_appState Helpers.stringify
       Helpers.promise Helpers.uncaught Helpers.reads Helpers.logged].
  rewrite String.eqb_refl, Hparse. now cbn.
Qed.

Lemma saveAppState_getCredentials_witness :
  Helpers.promise (Helpers.getCredentials (Helpers.saveAppState "cookie" Demo.first_run))
  = Some (Normal {| email := None; password := None; appState := Some "cookie" |}).
Proof.
  destruct (saveAppState_getCredentials Demo.first_run "cookie" eq_refl) as [H _].
  exact H.
Defined.

Example getCredentials_first_run :
  Helpers.getCredentials Demo.first_run
  = {| Helpers.promise := None; Helpers.uncaught := true;
       Helpers.reads := ["./appstate.json"; "./config.json"];
       Helpers.logged := []; Helpers.queue := [] |}.
Proof. reflexivity. Qed.

(** * Calls in flight and their answers *)

Lemma respond_step (st : Loop.t) (k caller : nat) (id : string) (r : response Thread.t) :
  Loop.pending st !! k = Some (caller, id) ->
  Loop.settled (Loop.step st (Loop.Respond k r))
  = Loop.settled st ++
      [(caller, match r with Data th => Normal th | Failure err => Abrupt err end)] /\
  Loop.pending (Loop.step st (Loop.Respond k r)) = delete k (Loop.pending st) /\
  messer (Loop.world (Loop.step st (Loop.Respond k r)))
  = match r with
    | Data th => cacheThread th (messer (Loop.world st))
    | Failure _ => messer (Loop.world st)
    end.
Proof.
  intros Hk. cbn [Loop.step]. rewrite Hk. destruct r as [th|err].
  - rewrite callback_data. now cbn.
  - rewrite callback_failure. now cbn.
Qed.

Lemma run_keeps_cached (l : list Loop.action) (st : Loop.t) (id : string) (e : Thread.t) :
  threadCache (messer (Loop.world st)) !! id = Some e ->
  threadCache (messer (Loop.world (Loop.run st l))) !! id = Some e /\
  Loop.fetches id (Loop.run st l) = Loop.fetches id st.
Proof.
  revert st. induction l as [|a l IH]; intros st He; [now split|].
  cbn [Loop.run foldl]. fold (Loop.run (Loop.step st a) l).
  destruct (step_keeps_cached st a id e He) as [He' Hf].
  destruct (IH _ He') as [He'' Hf']. split; [exact He''|congruence].
Qed.

Lemma respond_fetches (st : Loop.t) (k : nat) (r : response Thread.t) (id : string) :
  Loop.fetches id (Loop.step st (Loop.Respond k r)) = Loop.fetches id st.
Proof.
  unfold Loop.fetches. cbn [Loop.step].
  destruct (Loop.pending st !! k) as [[caller threadID]|]; [|reflexivity].
  pose proof (callback_trace r (Loop.world st) id) as Hc.
  destruct (getThreadById_callback r (Loop.world st)) as [c w'].
  cbn [snd Loop.world] in *. now rewrite Hc.
Qed.

(** C7. getThreadById keeps no record of the requests in flight.  When an
    identifier is not cached, every call made before an answer arrives
    issues a getThreadInfo request of its own: after calls by [callers]
    the number of requests for the identifier has grown by the number of
    callers, each caller has its own request in flight, none is settled
    and the session is as it was.  Each answer settles the caller of the
    request it answers, with the record or the error of that very answer,
    and a record goes through cacheThread.  So the first record to arrive
    for the identifier is the one cached: whatever calls and answers
    follow, the cache keeps its projection and no further request is
    issued for the identifier. *)
Theorem getThreadById_fetch_per_call
    (st : Loop.t) (a : Api) (threadID : string) (callers : list nat) :
  api (messer (Loop.world st)) = Some a ->
  threadCache (messer (Loop.world st)) !! threadID = None ->
  let st' := Loop.run st (map (fun c => Loop.Invoke c threadID) callers) in
  Loop.fetches threadID st' = Loop.fetches threadID st + length callers /\
  Loop.pending st' = Loop.pending st ++ map (fun c => (c, threadID)) callers /\
  Loop.settled st' = Loop.settled st /\
  messer (Loop.world st') = messer (Loop.world st) /\
  (forall st2 k caller id r,
      Loop.pending st2 !! k = Some (caller, id) ->
      Loop.settled (Loop.step st2 (Loop.Respond k r))
      = Loop.settled st2 ++
          [(caller, match r with Data th => Normal th | Failure err => Abrupt err end)] /\
      Loop.pending (Loop.step st2 (Loop.Respond k r)) = delete k (Loop.pending st2) /\
      messer (Loop.world (Loop.step st2 (Loop.Respond k r)))
      = match r with
        | Data th => cacheThread th (messer (Loop.world st2))
        | Failure _ => messer (Loop.world st2)
        end) /\
  (forall k caller first later,
      Loop.pending st' !! k = Some (caller, threadID) ->
      Thread.threadID first = threadID ->
      let st'' := Loop.run (Loop.step st' (Loop.Respond k (Data first))) later in
      threadCache (messer (Loop.world st'')) !! threadID = Some (projection first) /\
      Loop.fetches threadID st'' = Loop.fetches threadID st').
Proof.
  intros Ha Hc st'.
  destruct (invoke_all_miss callers st a threadID Ha Hc) as (Hf & Hp & Hs & Hm).
  fold st' in Hf, Hp, Hs, Hm.
  split; [exact Hf|]. split; [exact Hp|]. split; [exact Hs|]. split; [exact Hm|].
  split; [intros st2 k caller id r; apply respond_step|].
  intros k caller first later Hk Hid st''. subst st''.
  destruct (respond_step st' k caller threadID (Data first) Hk) as (_ & _ & Hcache).
  assert (Hfirst : threadCache
                     (messer (Loop.world (Loop.step st' (Loop.Respond k (Data first)))))
                   !! threadID = Some (projection first)).
  { rewrite Hcache, Hm.
    pose proof (cacheThread_lookup (messer (Loop.world st)) first) as Hl.
    rewrite Hid, Hc in Hl. exact Hl. }
  destruct (run_keeps_cached later _ _ _ Hfirst) as [Hkeep Hsame].
  split; [exact Hkeep|]. rewrite Hsame. apply respond_fetches.
Qed.

Lemma getThreadById_fetch_per_call_witness :
  let st := Loop.mk Sample.ready [] [] in
  let st' := Loop.run st [Loop.Invoke 7 "3"; Loop.Invoke 8 "3"] in
  let st1 := Loop.step st' (Loop.Respond 1 (Data Sample.group_thread)) in
  let st2 := Loop.run st1 [Loop.Respond 0 (Data Demo.renamed_group)] in
  Loop.fetches "3" st' = 2 /\
  Loop.pending st' = [(7, "3"); (8, "3")] /\
  Loop.settled st1 = [(8, Normal Sample.group_thread)] /\
  Loop.settled st2 = [(8, Normal Sample.group_thread); (7, Normal Demo.renamed_group)] /\
  threadCache (messer (Loop.world st2)) !! "3" = Some (Thread.mk (Some "Climbing") "3" []).
Proof.
  intros st st' st1 st2.
  destruct (getThreadById_fetch_per_call st Sample.fbApi "3" [7; 8] eq_refl eq_refl)
    as (Hf & Hp & _ & _ & Hanswer & Hfirst).
  split; [exact Hf|]. split; [exact Hp|].
  destruct (Hanswer st' 1 8 "3" (Data Sample.group_thread) eq_refl) as (Hs1 & _ & _).
  destruct (Hanswer st1 0 7 "3" (Data Demo.renamed_group) eq_refl) as (Hs2 & _ & _).
  destruct (Hfirst 1 8 Sample.group_thread [Loop.Respond 0 (Data Demo.renamed_group)]
              eq_refl eq_refl) as (Hcache & _).
  split; [exact Hs1|]. split; [exact Hs2 | exact Hcache].
Defined.

(** * Dispatch of a command line *)

Lemma remove_first_none (c : ascii) (s : string) :
  contains c s = false -> JsString.remove_first c s = s.
Proof.
  induction s as [|a s IH]; cbn [contains JsString.remove_first]; [reflexivity|].
  intros H. apply orb_false_iff in H. destruct H as [Ha Hs].
  rewrite Ha. now rewrite IH.
Qed.

(** The two relations describe what the code computes. *)
Lemma remove_first_line_feed (rawCommand line : string) :
  first_line_feed_removed rawCommand line ->
  JsString.remove_first "010" rawCommand = line.
Proof.
  intros [s Hs|a b Ha].
  - now apply remove_first_none.
  - rewrite (remove_first_app _ _ _ Ha). cbn [JsString.remove_first].
    now rewrite Ascii.eqb_refl.
Qed.

Lemma split_first_token (line name : string) :
  first_token line name ->
  exists rest, JsString.split " " line = name :: rest.
Proof.
  intros [s Hs|n args Hn].
  - exists []. now apply split_no_sep.
  - eexists. now apply split_app_sep.
Qed.

Lemma command_name_first_token (rawCommand line name : string) :
  first_line_feed_removed rawCommand line ->
  first_token line name ->
  command_name rawCommand = name.
Proof.
  intros Hline Hname. unfold command_name.
  rewrite (remove_first_line_feed _ _ Hline).
  destruct (split_first_token _ _ Hname) as [rest ->]. reflexivity.
Qed.

Lemma cut_at_first (c : ascii) (s : string) :
  contains c s = true ->
  exists a b, contains c a = false /\ s = a +:+ String c b.
Proof.
  induction s as [|x s IH]; cbn [contains]; [discriminate|].
  destruct (Ascii.eqb x c) eqn:E.
  - intros _. apply Ascii.eqb_eq in E. subst x. now exists "", s.
  - cbn [orb]. intros H. destruct (IH H) as (a & b & Ha & ->).
    exists (String x a), b. cbn [contains]. rewrite E, Ha. now split.
Qed.

(** Every input has a line and a first token, and only one of each. *)
Lemma line_and_token_exist (rawCommand : string) :
  exists line name, first_line_feed_removed rawCommand line /\ first_token line name.
Proof.
  assert (Hline : exists line, first_line_feed_removed rawCommand line).
  { destruct (contains "010" rawCommand) eqn:E.
    - destruct (cut_at_first _ _ E) as (a & b & Ha & ->).
      eexists. now apply one_line_feed.
    - eexists. now apply no_line_feed. }
  destruct Hline as [line Hline]. exists line.
  destruct (contains " " line) eqn:E.
  - destruct (cut_at_first _ _ E) as (a & b & Ha & ->).
    eexists. split; [exact Hline|]. now apply until_space.
  - eexists. split; [exact Hline|]. now apply whole_line.
Qed.

(** C8. What processCommand does with an input, the line being the input
    without its first line feed and the name the first token of the line.
    An input of white space only changes nothing: no handler, no output.
    Otherwise, when no handler is registered under the name, the only
    effect is the line "Invalid command - check your syntax" on the
    terminal.  When one is, it is called with the raw input; when the
    promise it returns is fulfilled with a message or rejected with an
    error, that value is logged, the callback of the read-eval loop is
    called and processCommand completes normally; a promise that stays
    pending leaves it at that.  Only what comes through the promise is
    caught: an exception thrown by the call itself, or the TypeError of a
    call that returns no promise, leaves processCommand. *)
Theorem processCommand_dispatch
    (getCommandHandler : string -> option Handler)
    (rawCommand line name : string) (w : World) :
  first_line_feed_removed rawCommand line ->
  first_token line name ->
  processCommand getCommandHandler rawCommand w =
    if JsString.all_whitespace rawCommand then (Normal tt, w)
    else match getCommandHandler name with
         | None =>
             (Normal tt, with_trace w [Logged (Str "Invalid command - check your syntax")])
         | Some handler =>
             match handler rawCommand (with_trace w [HandlerCalled rawCommand]) with
             | (Fulfils message, w') =>
                 (Normal tt, with_trace w' [Logged (Str message); ReplCallback])
             | (Rejects err, w') =>
                 (Normal tt, with_trace w' [Logged err; ReplCallback])
             | (Pends, w') => (Normal tt, w')
             | (Throws e, w') => (Abrupt e, w')
             | (ReturnsUndefined, w') =>
                 (Abrupt (TypeError "Cannot read property 'then' of undefined"), w')
             end
         end.
Proof.
  intros Hline Hname. unfold processCommand. rewrite trim_empty.
  destruct (JsString.all_whitespace rawCommand); [reflexivity|].
  rewrite (command_name_first_token _ _ _ Hline Hname).
  destruct (getCommandHandler name) as [handler|]; [|reflexivity].
  fold (with_trace w [HandlerCalled rawCommand]).
  destruct (handler rawCommand (with_trace w [HandlerCalled rawCommand]))
    as [[e| |message|err|] [s tr]]; try reflexivity;
    unfold log, bind, emit, with_trace; cbn [messer trace]; now rewrite <- app_assoc.
Qed.

Lemma processCommand_dispatch_witness :
  processCommand Sample.registry
    (String.append "message bob hi" (String "010" "")) Sample.ready
  = (Normal tt,
     with_trace Sample.ready
       [HandlerCalled (String.append "message bob hi" (String "010" ""));
        Logged (Str (String.append "sent: message bob hi" (String "010" "")));
        ReplCallback]) /\
  processCommand Sample.registry "reply ok" Sample.ready
  = (Normal tt,
     with_trace Sample.ready
       [HandlerCalled "reply ok"; Logged (Str "no such friend"); ReplCallback]) /\
  processCommand Sample.registry "message_bob hi" Sample.ready
  = (Normal tt,
     with_trace Sample.ready [Logged (Str "Invalid command - check your syntax")]).
Proof.
  split; [|split].
  - exact (processCommand_dispatch Sample.registry
             (String.append "message bob hi" (String "010" "")) "message bob hi" "message"
             Sample.ready
             (one_line_feed "message bob hi" "" eq_refl)
             (until_space "message" "bob hi" eq_refl)).
  - exact (processCommand_dispatch Sample.registry "reply ok" "reply ok" "reply"
             Sample.ready (no_line_feed "reply ok" eq_refl)
             (until_space "reply" "ok" eq_refl)).
  - exact (processCommand_dispatch Sample.registry "message_bob hi" "message_bob hi"
             "message_bob" Sample.ready (no_line_feed "message_bob hi" eq_refl)
             (until_space "message_bob" "hi" eq_refl)).
Defined.

(** C8, as stated, fails: a registered handler whose call throws makes
    processCommand throw; nothing is logged and the callback of the
    read-eval loop is not called. *)
Lemma processCommand_handler_throw_escapes :
  Sample.registry "crash" = Some Sample.faulty /\
  processCommand Sample.registry "crash now" Sample.ready
  = (Abrupt (Str "boom"), with_trace Sample.ready [HandlerCalled "crash now"]) /\
  ~ (forall (getCommandHandler : string -> option Handler) (rawCommand : string)
            (w : World),
        exists w', processCommand getCommandHandler rawCommand w = (Normal tt, w')).
Proof.
  split; [reflexivity|]. split; [vm_compute; reflexivity|].
  intros H. destruct (H Sample.registry "crash now" Sample.ready) as [w' Hw'].
  vm_compute in Hw'. discriminate Hw'.
Qed.
